(** * Stella: breakpoint registry, save-state slots and the scheduler loop

    A shallow embedding of
    - [BreakpointMap]  (src/debugger/BreakpointMap.cxx and its header),
    - [StateManager]   (src/common/StateManager.cxx),
    - [OSystem::hasConsole], [OSystem::dispatchEmulation] and
      [OSystem::mainLoop] (OSystem.cxx),
    together with the properties the specification states about them. *)

From Stdlib Require Import ZArith Lia Bool String Ascii List.
From Stdlib Require Import DecimalString PrimFloat SpecFloat FloatOps.
From stdpp Require Import base gmap strings.
Import ListNotations.

Local Open Scope Z_scope.

(** ** Fixed-width integers of bspf.hxx *)

Definition uInt8_range  (z : Z) : Prop := 0 <= z < 2 ^ 8.
Definition uInt16_range (z : Z) : Prop := 0 <= z < 2 ^ 16.
Definition uInt32_range (z : Z) : Prop := 0 <= z < 2 ^ 32.

(** [int]: 32 bits, two's complement. *)
Definition INT_MIN : Z := - 2 ^ 31.
Definition INT_MAX : Z := 2 ^ 31 - 1.
Definition int_range (z : Z) : Prop := INT_MIN <= z <= INT_MAX.
Definition int_rangeb (z : Z) : bool := (INT_MIN <=? z) && (z <=? INT_MAX).

(** Conversion of an integer to an unsigned type of the given width. *)
Definition to_uInt8  (z : Z) : Z := z mod 2 ^ 8.
Definition to_uInt16 (z : Z) : Z := z mod 2 ^ 16.
Definition to_uInt32 (z : Z) : Z := z mod 2 ^ 32.
Definition to_uInt64 (z : Z) : Z := z mod 2 ^ 64.

(** [ostream << int]: decimal digits, with a leading minus sign. *)
Definition show_int (z : Z) : string := NilZero.string_of_int (Z.to_int z).

(** [static_cast<double>] of an integer: the nearest binary64 value. *)
Definition double_of_Z (z : Z) : float :=
  SF2Prim (binary_normalize 53 1024 z 0 false).

(** ** BreakpointMap *)

Module BreakpointMap.

(** [static const uInt16 ADDRESS_MASK = 0x1fff] *)
Definition ADDRESS_MASK : Z := 0x1fff.

(** [static const uInt32 ONE_SHOT = 1 << 0] *)
Definition ONE_SHOT : Z := Z.shiftl 1 0.

(** [struct Breakpoint { uInt16 addr; uInt8 bank; }] *)
Record Breakpoint : Type := { addr : Z; bank : Z }.

(** [explicit Breakpoint(uInt16 c_addr, uInt8 c_bank)]: the arguments are
    converted to the field types. *)
Definition mkBreakpoint (c_addr c_bank : Z) : Breakpoint :=
  {| addr := to_uInt16 c_addr; bank := to_uInt8 c_bank |}.

(** [Breakpoint::operator==] *)
Definition bp_eqb (a b : Breakpoint) : bool :=
  (Z.land (addr a) ADDRESS_MASK =? Z.land (addr b) ADDRESS_MASK)
  && (bank a =? bank b).

(** [BreakpointHash::operator()], over the platform's [std::hash<uInt64>]. *)
Definition BreakpointHash (std_hash : Z -> Z) (bp : Breakpoint) : Z :=
  std_hash (to_uInt64 (to_uInt64 (Z.land (addr bp) ADDRESS_MASK) * 13
                       + to_uInt64 (bank bp))).

(** The equivalence class of a breakpoint under [operator==]: the
    [unordered_map] holds at most one entry per class. *)
Definition bp_key (bp : Breakpoint) : Z * Z :=
  (Z.land (addr bp) ADDRESS_MASK, bank bp).

(** [std::unordered_map<Breakpoint, uInt32, BreakpointHash> myMap] and
    [bool myInitialized].  An entry keeps the key object it was created
    with, next to the flags. *)
Record t : Type := {
  myMap : gmap (Z * Z) (Breakpoint * Z);
  myInitialized : bool
}.

(** [BreakpointMap::BreakpointMap()] *)
Definition create : t := {| myMap := ∅; myInitialized := false |}.

Definition isInitialized (m : t) : bool := myInitialized m.

(** [myMap[breakpoint] = flags]: [operator[]] finds the entry of an equal
    key, or creates one under [breakpoint]; the flags are then assigned. *)
Definition map_assign (bp : Breakpoint) (flags : Z)
    (mp : gmap (Z * Z) (Breakpoint * Z)) : gmap (Z * Z) (Breakpoint * Z) :=
  match mp !! bp_key bp with
  | Some (stored, _) => <[bp_key bp := (stored, flags)]> mp
  | None => <[bp_key bp := (bp, flags)]> mp
  end.

(** [void add(const Breakpoint&, const uInt32 flags = 0)] *)
Definition add (bp : Breakpoint) (flags : Z) (m : t) : t :=
  {| myInitialized := true;
     myMap := map_assign bp (to_uInt32 flags) (myMap m) |}.

(** [void add(const uInt16 addr, const uInt8 bank, const uInt32 flags = 0)] *)
Definition add_at (a b flags : Z) (m : t) : t :=
  add (mkBreakpoint a b) flags m.

(** [void erase(const Breakpoint&)] *)
Definition erase (bp : Breakpoint) (m : t) : t :=
  {| myInitialized := myInitialized m;
     myMap := delete (bp_key bp) (myMap m) |}.

(** [void erase(const uInt16 addr, const uInt8 bank)] *)
Definition erase_at (a b : Z) (m : t) : t := erase (mkBreakpoint a b) m.

(** [uInt32 get(const Breakpoint&) const] *)
Definition get (bp : Breakpoint) (m : t) : Z :=
  match myMap m !! bp_key bp with
  | Some (_, flags) => flags
  | None => 0
  end.

(** [uInt32 get(uInt16 addr, uInt8 bank) const] *)
Definition get_at (a b : Z) (m : t) : Z := get (mkBreakpoint a b) m.

(** [bool check(const Breakpoint&) const] *)
Definition check (bp : Breakpoint) (m : t) : bool :=
  match myMap m !! bp_key bp with
  | Some _ => true
  | None => false
  end.

(** [bool check(const uInt16 addr, const uInt8 bank) const] *)
Definition check_at (a b : Z) (m : t) : bool := check (mkBreakpoint a b) m.

(** [BreakpointList getBreakpoints() const] (iteration order unspecified). *)
Definition getBreakpoints (m : t) : list Breakpoint :=
  (fun kv => fst (snd kv)) <$> map_to_list (myMap m).

(** [void clear() { myMap.clear(); }] *)
Definition clear (m : t) : t :=
  {| myInitialized := myInitialized m; myMap := ∅ |}.

(** [size_t size() { return myMap.size(); }] *)
Definition size (m : t) : nat := base.size (myMap m).

(** The mutating interface, as a command language. *)
Inductive op : Type :=
| OpAdd (bp : Breakpoint) (flags : Z)
| OpErase (bp : Breakpoint)
| OpClear.

Definition apply_op (o : op) (m : t) : t :=
  match o with
  | OpAdd bp flags => add bp flags m
  | OpErase bp => erase bp m
  | OpClear => clear m
  end.

Definition run (ops : list op) (m : t) : t :=
  fold_left (fun acc o => apply_op o acc) ops m.

(** The commands that are an [add]. *)
Definition is_OpAdd (o : op) : bool :=
  match o with OpAdd _ _ => true | _ => false end.

End BreakpointMap.

(** ** Exceptions and mutable state

    The member functions below run against the whole program state [S] and
    may leave by an exception.  Dereferencing a null [unique_ptr] is undefined
    behaviour, and so is an [int] expression whose value [int] cannot hold:
    it is kept apart from exceptions, no handler catches it. *)

Module Eff.

(** What a call into a collaborator's code yields: a value or a C++
    exception. *)
Inductive exc (A : Type) : Type :=
| Value (a : A)
| Raised (what : string).
Arguments Value {A} a.
Arguments Raised {A} what.

Inductive outcome (A : Type) : Type :=
| Done (a : A)
| Thrown (what : string)
| Undefined.
Arguments Done {A} a.
Arguments Thrown {A} what.
Arguments Undefined {A}.

Definition M (S A : Type) : Type := S -> outcome A * S.

Definition ret {S A} (a : A) : M S A := fun s => (Done a, s).

Definition bind {S A B} (c : M S A) (k : A -> M S B) : M S B :=
  fun s =>
    match c s with
    | (Done a, s') => k a s'
    | (Thrown what, s') => (Thrown what, s')
    | (Undefined, s') => (Undefined, s')
    end.

Definition throw {S A} (what : string) : M S A := fun s => (Thrown what, s).

Definition undefined {S A} : M S A := fun s => (Undefined, s).

(** An arithmetic expression of type [int] whose mathematical value is [z]:
    the value when [int] holds it, undefined behaviour when it overflows. *)
Definition int_value {S} (z : Z) : M S Z :=
  if int_rangeb z then ret z else undefined.

(** [try { c } catch(...) { h }]: the state changes made before the
    exception stay. *)
Definition try_catch {S A} (c : M S A) (h : M S A) : M S A :=
  fun s =>
    match c s with
    | (Thrown _, s') => h s'
    | r => r
    end.

Definition gets {S A} (f : S -> A) : M S A := fun s => (Done (f s), s).

Definition modify {S} (f : S -> S) : M S unit := fun s => (Done tt, f s).

(** The value of a call into outside code, or its exception. *)
Definition lift_exc {S A} (r : exc A) : M S A :=
  match r with
  | Value a => ret a
  | Raised what => throw what
  end.

End Eff.

Export Eff.

Declare Scope eff_scope.
Delimit Scope eff_scope with eff.
Notation "x <- c ;; k" := (Eff.bind c (fun x => k))
  (at level 100, c at next level, right associativity) : eff_scope.
Notation "c ;;; k" := (Eff.bind c (fun _ => k))
  (at level 100, right associativity) : eff_scope.

Local Open Scope eff_scope.

(** ** Collaborators of the core *)

(** [EventHandlerState], the enumerators OSystem.cxx names. *)
Inductive EventHandlerState : Type :=
| EMULATION | PAUSE | OPTIONSMENU | CMDMENU | TIMEMACHINE | PLAYBACK
| LAUNCHER | DEBUGGER | NONE.

Definition is_EMULATION (s : EventHandlerState) : bool :=
  match s with EMULATION => true | _ => false end.
Definition is_PLAYBACK (s : EventHandlerState) : bool :=
  match s with PLAYBACK => true | _ => false end.
Definition is_LAUNCHER (s : EventHandlerState) : bool :=
  match s with LAUNCHER => true | _ => false end.

(** [DispatchResult], as [OSystem::dispatchEmulation] reads it.  [invalid]
    stands for every status the [switch] sends to its [default] branch. *)
Module DispatchResult.
Inductive Status : Type := invalid | ok | debugger | fatal.
Record t : Type := {
  getStatus : Status;
  getMessage : string;
  getAddress : Z;
  wasReadTrap : bool;
  getToolTip : string
}.
End DispatchResult.

(** [EmulationTiming], consumed read-only. *)
Record EmulationTiming : Type := {
  cyclesPerSecond : Z;
  cyclesPerFrame : Z;
  maxCyclesPerTimeslice : Z;
  minCyclesPerTimeslice : Z
}.

(** Code these files call but do not contain ([Serializer], [Console],
    [TIA], [EmulationWorker], [<chrono>]), taken as parameters.  A call
    into it yields a value or an exception ([exc]); where it mutates its
    object the new object is returned next to the result. *)
Class Externals : Type := {
  (** the emulated hardware held by [Console] (CPU, TIA, RIOT, cartridge) *)
  Machine : Type;
  (** an open [Serializer] stream *)
  Serializer : Type;
  (** [Serializer::getString] *)
  ser_getString : Serializer -> exc (string * Serializer);
  (** [Serializer::putString] *)
  ser_putString : string -> Serializer -> exc Serializer;
  (** [Console::load(Serializer&)]: its result, and the hardware state it
      leaves behind *)
  console_load : Serializer -> Machine -> exc bool * Machine;
  (** [Console::save(Serializer&) const] *)
  console_save : Serializer -> Machine -> exc bool;
  (** [Console::fry] *)
  console_fry : Machine -> Machine;
  (** [TIA::newFramePending], [TIA::framesSinceLastRender],
      [TIA::scanlinesLastFrame], [TIA::renderToFrameBuffer] *)
  tia_newFramePending : Machine -> bool;
  tia_framesSinceLastRender : Machine -> Z;
  tia_scanlinesLastFrame : Machine -> Z;
  tia_renderToFrameBuffer : Machine -> Machine;
  (** What the worker thread has done to the hardware when
      [EmulationWorker::stop] returns, for the arguments [start] was given
      (cycles per second, maximum and minimum cycles per timeslice): the
      cycles executed, the dispatch result it wrote, the new hardware state. *)
  worker_run : Z -> Z -> Z -> Machine -> Z * DispatchResult.t * Machine;
  (** [duration_cast<high_resolution_clock::duration>] of seconds held in a
      [double], and [duration_cast<duration<double>>] of clock ticks *)
  clock_duration_of_seconds : float -> Z;
  seconds_of_clock_duration : Z -> float;
  (** [#ifdef DEBUGGER_SUPPORT] *)
  DEBUGGER_SUPPORT : bool
}.

(** ** OSystem and StateManager *)

(** [#define STATE_HEADER "05099100state"] *)
Definition STATE_HEADER : string := "05099100state".

(** [StateManager::Mode], the enumerators StateManager.cxx uses. *)
Inductive Mode : Type := Off | TimeMachine.

(** Calls into the collaborators, in the order the foreground thread makes
    them. *)
Inductive Event : Type :=
| ShowMessage (msg : string)
| OpenSerializer (path : string) (readonly : bool)
| GetString
| PutString (s : string)
| ConsoleLoad
| ConsoleSave
| RewindAddState (label : string) (continuous : bool)
| FpsMeterReset
| TiaNewFramePending
| TiaFramesSinceLastRender
| FpsMeterRender (frames : Z)
| TiaRenderToFrameBuffer
| WorkerStart (cps maxCycles minCycles : Z)
| FrameBufferUpdateInEmulationMode
| WorkerStop
| DispatchResultGetStatus
| DebuggerStart (msg : string) (address : Z) (readTrap : bool) (toolTip : string)
| DebuggerStartWithFatalError (msg : string)
| CerrLine (msg : string)
| ConsoleFry
| TiaScanlinesLastFrame
| FrameBufferUpdate
| SleepUntil (t : Z).

Section Core.

Context {X : Externals}.

(** [Console], as far as the core looks into it. *)
Record Console : Type := {
  properties_Cartridge_Name : string;
  cartridge_name : string;
  emulationTiming : EmulationTiming;
  machine : Machine
}.

(** The state the member functions run against: [OSystem] with its event
    handler, settings and state manager, the file system as
    [Serializer]'s constructor sees it, and the calls made so far. *)
Record World : Type := {
  myConsole : option Console;
  eh_state : EventHandlerState;
  eh_frying : bool;
  settings : gmap string bool;
  stateDir : string;
  disk : string -> bool -> option Serializer;
  myCurrentSlot : Z;
  myActiveMode : Mode;
  myQuitLoop : bool;
  events : list Event
}.

Definition log (e : Event) (w : World) : World :=
  {| myConsole := myConsole w; eh_state := eh_state w;
     eh_frying := eh_frying w; settings := settings w;
     stateDir := stateDir w; disk := disk w;
     myCurrentSlot := myCurrentSlot w; myActiveMode := myActiveMode w;
     myQuitLoop := myQuitLoop w; events := events w ++ [e] |}.

Definition set_myCurrentSlot (n : Z) (w : World) : World :=
  {| myConsole := myConsole w; eh_state := eh_state w;
     eh_frying := eh_frying w; settings := settings w;
     stateDir := stateDir w; disk := disk w;
     myCurrentSlot := n; myActiveMode := myActiveMode w;
     myQuitLoop := myQuitLoop w; events := events w |}.

Definition set_myActiveMode (m : Mode) (w : World) : World :=
  {| myConsole := myConsole w; eh_state := eh_state w;
     eh_frying := eh_frying w; settings := settings w;
     stateDir := stateDir w; disk := disk w;
     myCurrentSlot := myCurrentSlot w; myActiveMode := m;
     myQuitLoop := myQuitLoop w; events := events w |}.

Definition set_settings (st : gmap string bool) (w : World) : World :=
  {| myConsole := myConsole w; eh_state := eh_state w;
     eh_frying := eh_frying w; settings := st;
     stateDir := stateDir w; disk := disk w;
     myCurrentSlot := myCurrentSlot w; myActiveMode := myActiveMode w;
     myQuitLoop := myQuitLoop w; events := events w |}.

Definition with_machine (m : Machine) (c : Console) : Console :=
  {| properties_Cartridge_Name := properties_Cartridge_Name c;
     cartridge_name := cartridge_name c;
     emulationTiming := emulationTiming c;
     machine := m |}.

(** The hardware of the attached console is replaced in place. *)
Definition set_machine (m : Machine) (w : World) : World :=
  {| myConsole := with_machine m <$> myConsole w; eh_state := eh_state w;
     eh_frying := eh_frying w; settings := settings w;
     stateDir := stateDir w; disk := disk w;
     myCurrentSlot := myCurrentSlot w; myActiveMode := myActiveMode w;
     myQuitLoop := myQuitLoop w; events := events w |}.

(** [Settings::getBool]: an unset key reads as [false]. *)
Definition getBool (key : string) (w : World) : bool :=
  default false (settings w !! key).

(** [Settings::setValue] *)
Definition setValue (key : string) (v : bool) : M World unit :=
  modify (fun w => set_settings (<[key := v]> (settings w)) w).

(** [bool OSystem::hasConsole() const] *)
Definition hasConsole (w : World) : bool :=
  match myConsole w with
  | Some _ => negb (is_LAUNCHER (eh_state w))
  | None => false
  end.

(** [*myConsole] *)
Definition console : M World Console :=
  fun w =>
    match myConsole w with
    | Some c => (Done c, w)
    | None => (Undefined, w)
    end.

Definition emit (e : Event) : M World unit := modify (log e).

(** [myOSystem.frameBuffer().showMessage(msg)] *)
Definition showMessage (msg : string) : M World unit := emit (ShowMessage msg).

(** [Serializer s(path, readonly)]; [None] when [!s]. *)
Definition openSerializer (path : string) (readonly : bool)
  : M World (option Serializer) :=
  emit (OpenSerializer path readonly) ;;;
  gets (fun w => disk w path readonly).

Definition getString (s : Serializer) : M World (string * Serializer) :=
  emit GetString ;;; lift_exc (ser_getString s).

Definition putString (str : string) (s : Serializer) : M World Serializer :=
  emit (PutString str) ;;; lift_exc (ser_putString str s).

(** [myOSystem.console().load(in)] *)
Definition Console_load (s : Serializer) : M World bool :=
  c <- console ;;
  emit ConsoleLoad ;;;
  modify (set_machine (snd (console_load s (machine c)))) ;;;
  lift_exc (fst (console_load s (machine c))).

(** [myOSystem.console().save(out)] *)
Definition Console_save (s : Serializer) : M World bool :=
  c <- console ;;
  emit ConsoleSave ;;;
  lift_exc (console_save s (machine c)).

(** *** StateManager *)

(** [RewindManager::addState(label, continuous)]; the manager itself is
    another component, the call is recorded. *)
Definition RewindManager_addState (label : string) (continuous : bool)
  : M World unit :=
  emit (RewindAddState label continuous).

(** [void StateManager::toggleTimeMachine()] *)
Definition toggleTimeMachine : M World unit :=
  devSettings <- gets (getBool "dev.settings") ;;
  mode <- gets myActiveMode ;;
  let mode' := match mode with TimeMachine => Off | Off => TimeMachine end in
  modify (set_myActiveMode mode') ;;;
  match mode' with
  | TimeMachine => showMessage "Time Machine enabled"
  | Off => showMessage "Time Machine disabled"
  end ;;;
  setValue (if devSettings then "dev.timemachine" else "plr.timemachine")
           (match mode' with TimeMachine => true | Off => false end).

(** [void StateManager::update()] *)
Definition update : M World unit :=
  mode <- gets myActiveMode ;;
  match mode with
  | TimeMachine => RewindManager_addState "Time Machine" true
  | _ => ret tt
  end.

(** The file name both [loadState] and [saveState] build in [buf]. *)
Definition state_file (dir : string) (c : Console) (slot : Z) : string :=
  dir +:+ properties_Cartridge_Name c +:+ ".st" +:+ show_int slot.

(** The body of the [try] block of [loadState]: the text left in [buf].
    Nothing is written to [buf] before the last call that can throw has
    returned, so the handler finds it empty. *)
Definition loadState_try (slot : Z) (in0 : Serializer) : M World string :=
  r1 <- getString in0 ;;
  if negb (String.eqb (fst r1) STATE_HEADER) then
    ret ("Incompatible state " +:+ show_int slot +:+ " file")
  else
    r2 <- getString (snd r1) ;;
    c <- console ;;
    if negb (String.eqb (fst r2) (cartridge_name c)) then
      ret ("State " +:+ show_int slot +:+ " file doesn't match current ROM")
    else
      loaded <- Console_load (snd r2) ;;
      if loaded then ret ("State " +:+ show_int slot +:+ " loaded")
      else ret ("Invalid data in state " +:+ show_int slot +:+ " file").

(** [void StateManager::loadState(int slot)] *)
Definition loadState (slot : Z) : M World unit :=
  has <- gets hasConsole ;;
  if has then
    cur <- gets myCurrentSlot ;;
    let slot := if slot <? 0 then cur else slot in
    dir <- gets stateDir ;;
    c <- console ;;
    opened <- openSerializer (state_file dir c slot) true ;;
    match opened with
    | None =>
        showMessage ("Can't open/load from state file " +:+ show_int slot)
    | Some in0 =>
        buf <- try_catch
                 (loadState_try slot in0)
                 (ret ("Invalid data in state " +:+ show_int slot +:+ " file")) ;;
        showMessage buf
    end
  else ret tt.

(** The [try] block of [saveState]: header tag, then cartridge name. *)
Definition saveState_try (out0 : Serializer) : M World Serializer :=
  out1 <- putString STATE_HEADER out0 ;;
  c <- console ;;
  putString (cartridge_name c) out1.

(** [void StateManager::saveState(int slot)].  [slot + 1] is computed in
    [int], where it overflows for [slot = INT_MAX]; [%] truncates towards
    zero.  In the handler [buf] still holds the file name. *)
Definition saveState (slot : Z) : M World unit :=
  has <- gets hasConsole ;;
  if has then
    cur <- gets myCurrentSlot ;;
    let slot := if slot <? 0 then cur else slot in
    dir <- gets stateDir ;;
    c <- console ;;
    opened <- openSerializer (state_file dir c slot) false ;;
    match opened with
    | None =>
        showMessage ("Can't open/save to state file " +:+ show_int slot)
    | Some out0 =>
        written <- try_catch (out2 <- saveState_try out0 ;; ret (Some out2))
                             (ret None) ;;
        match written with
        | None =>
            showMessage (state_file dir c slot +:+ "Error saving state "
                         +:+ show_int slot)
        | Some out2 =>
            saved <- Console_save out2 ;;
            if saved then
              autoslot <- gets (getBool "autoslot") ;;
              if autoslot then
                next <- int_value (slot + 1) ;;
                modify (set_myCurrentSlot (Z.rem next 10)) ;;;
                showMessage ("State " +:+ show_int slot +:+ " saved"
                             +:+ ", switching to slot " +:+ show_int slot)
              else
                showMessage ("State " +:+ show_int slot +:+ " saved")
            else
              showMessage ("Error saving state " +:+ show_int slot)
        end
    end
  else ret tt.


(** The slot a call works on: [if(slot < 0) slot = myCurrentSlot]. *)
Definition effective_slot (slot : Z) (w : World) : Z :=
  if slot <? 0 then myCurrentSlot w else slot.

(** The calls to [RewindManager::addState] among the calls made. *)
Definition addState_calls (evs : list Event) : list (string * bool) :=
  omap (fun e => match e with
                 | RewindAddState label continuous => Some (label, continuous)
                 | _ => None
                 end) evs.

(** [void StateManager::changeState()].  [myCurrentSlot + 1] is computed
    in [int]; the message shows the slot just stored. *)
Definition changeState : M World unit :=
  cur <- gets myCurrentSlot ;;
  next <- int_value (cur + 1) ;;
  modify (set_myCurrentSlot (Z.rem next 10)) ;;;
  showMessage ("Changed to slot " +:+ show_int (Z.rem next 10)).

(** *** OSystem: the scheduler loop *)

(** The hardware of the attached console is updated in place by [f]. *)
Definition update_machine (f : Machine -> Machine) : M World unit :=
  c <- console ;;
  modify (set_machine (f (machine c))).

(** The [switch] on the dispatch result in [dispatchEmulation]. *)
Definition handle_dispatch_result (r : DispatchResult.t) : M World unit :=
  emit DispatchResultGetStatus ;;;
  match DispatchResult.getStatus r with
  | DispatchResult.ok => ret tt
  | DispatchResult.debugger =>
      if DEBUGGER_SUPPORT then
        emit (DebuggerStart (DispatchResult.getMessage r)
                            (DispatchResult.getAddress r)
                            (DispatchResult.wasReadTrap r)
                            (DispatchResult.getToolTip r))
      else ret tt
  | DispatchResult.fatal =>
      if DEBUGGER_SUPPORT then
        emit (DebuggerStartWithFatalError (DispatchResult.getMessage r))
      else emit (CerrLine (DispatchResult.getMessage r))
  | DispatchResult.invalid => throw "invalid emulation dispatch result"
  end.

(** [double OSystem::dispatchEmulation(EmulationWorker&)].  The worker
    thread owns the hardware from [start] to [stop]; what it did becomes
    visible to this thread when [stop] returns. *)
Definition dispatchEmulation : M World float :=
  attached <- gets myConsole ;;
  match attached with
  | None => ret 0%float
  | Some c0 =>
      let timing := emulationTiming c0 in
      emit TiaNewFramePending ;;;
      let framePending := tia_newFramePending (machine c0) in
      (if framePending then
         emit TiaFramesSinceLastRender ;;;
         emit (FpsMeterRender (tia_framesSinceLastRender (machine c0))) ;;;
         emit TiaRenderToFrameBuffer ;;;
         update_machine tia_renderToFrameBuffer
       else ret tt) ;;;
      emit (WorkerStart (cyclesPerSecond timing)
                        (maxCyclesPerTimeslice timing)
                        (minCyclesPerTimeslice timing)) ;;;
      (if framePending then emit FrameBufferUpdateInEmulationMode
       else ret tt) ;;;
      c1 <- console ;;
      let ran := worker_run (cyclesPerSecond timing)
                            (maxCyclesPerTimeslice timing)
                            (minCyclesPerTimeslice timing) (machine c1) in
      let totalCycles := fst (fst ran) in
      let dispatchResult := snd (fst ran) in
      emit WorkerStop ;;;
      modify (set_machine (snd ran)) ;;;
      handle_dispatch_result dispatchResult ;;;
      emit DispatchResultGetStatus ;;;
      frying <- gets eh_frying ;;
      (match DispatchResult.getStatus dispatchResult with
       | DispatchResult.ok =>
           if frying then emit ConsoleFry ;;; update_machine console_fry
           else ret tt
       | _ => ret tt
       end) ;;;
      ret (double_of_Z totalCycles / double_of_Z (cyclesPerSecond timing))%float
  end.

(** The three-way choice of [timesliceSeconds] in [mainLoop]. *)
Definition timesliceSeconds : M World float :=
  st <- gets eh_state ;;
  if is_EMULATION st then dispatchEmulation
  else if is_PLAYBACK st then
    c <- console ;;
    emit TiaScanlinesLastFrame ;;;
    emit FrameBufferUpdate ;;;
    ret (double_of_Z (to_uInt32 (tia_scanlinesLastFrame (machine c) * 76))
         / double_of_Z (cyclesPerSecond (emulationTiming c)))%float
  else
    emit FrameBufferUpdate ;;;
    ret (1 / 60)%float.

(** [maxLag] of [mainLoop]: one frame of the attached console, in
    seconds. *)
Definition maxLag (w : World) : float :=
  match myConsole w with
  | Some c =>
      (double_of_Z (cyclesPerFrame (emulationTiming c))
       / double_of_Z (cyclesPerSecond (emulationTiming c)))%float
  | None => double_of_Z 0
  end.

(** The end of an iteration of [mainLoop]: the virtual time to carry to
    the next one, given the time already advanced by the timeslice. *)
Definition reconcile (now virtualTime : Z) : M World Z :=
  lag <- gets maxLag ;;
  if (lag <? seconds_of_clock_duration (now - virtualTime))%float then ret now
  else if now <? virtualTime then
    emit (SleepUntil virtualTime) ;;; ret virtualTime
  else ret virtualTime.

(** One pass through the body of [for(;;)] in [OSystem::mainLoop].
    [poll] is what [myEventHandler->poll] does to the program state;
    [now_reset] and [now] are the two readings of
    [high_resolution_clock::now()], in clock ticks.  The result is the
    new [virtualTime], or [None] when the loop is left. *)
Definition mainLoop_iteration (poll : World -> World) (now_reset now : Z)
    (virtualTime : Z) : M World (option Z) :=
  before <- gets eh_state ;;
  let wasEmulation := is_EMULATION before in
  modify poll ;;;
  quit <- gets myQuitLoop ;;
  if quit then ret None
  else
    st <- gets eh_state ;;
    let entered := negb wasEmulation && is_EMULATION st in
    (if entered then emit FpsMeterReset else ret tt) ;;;
    let virtualTime := if entered then now_reset else virtualTime in
    seconds <- timesliceSeconds ;;
    let virtualTime := virtualTime + clock_duration_of_seconds seconds in
    vt <- reconcile now virtualTime ;;
    ret (Some vt).

(** The hardware the worker is started on: the frame pending, if any,
    has been handed to the frame buffer. *)
Definition machine_at_start (c : Console) : Machine :=
  if tia_newFramePending (machine c)
  then tia_renderToFrameBuffer (machine c)
  else machine c.

(** What [EmulationWorker::stop] returns in [dispatchEmulation]. *)
Definition worker_outcome (c : Console) : Z * DispatchResult.t * Machine :=
  worker_run (cyclesPerSecond (emulationTiming c))
             (maxCyclesPerTimeslice (emulationTiming c))
             (minCyclesPerTimeslice (emulationTiming c))
             (machine_at_start c).

(** The calls that read or write the emulated hardware or the dispatch
    result the worker writes. *)
Definition touches_hardware (e : Event) : bool :=
  match e with
  | ConsoleLoad | ConsoleSave | ConsoleFry | RewindAddState _ _
  | TiaNewFramePending | TiaFramesSinceLastRender | TiaRenderToFrameBuffer
  | TiaScanlinesLastFrame | DispatchResultGetStatus => true
  | _ => false
  end.

(** No call between a [WorkerStart] and the next [WorkerStop] touches the
    hardware; [started] tells whether the worker runs at the head of the
    list. *)
Fixpoint window_clean (started : bool) (evs : list Event) : bool :=
  match evs with
  | [] => true
  | WorkerStart _ _ _ :: rest => window_clean true rest
  | WorkerStop :: rest => window_clean false rest
  | e :: rest =>
      (negb started || negb (touches_hardware e)) && window_clean started rest
  end.

(** The calls [dispatchEmulation] makes once [stop] has returned and the
    status has been read, by what the worker reported. *)
Definition after_status (r : DispatchResult.t) (frying : bool) : list Event :=
  match DispatchResult.getStatus r with
  | DispatchResult.ok =>
      DispatchResultGetStatus :: (if frying then [ConsoleFry] else [])
  | DispatchResult.debugger =>
      (if DEBUGGER_SUPPORT
       then [DebuggerStart (DispatchResult.getMessage r)
                           (DispatchResult.getAddress r)
                           (DispatchResult.wasReadTrap r)
                           (DispatchResult.getToolTip r)]
       else [])
      ++ [DispatchResultGetStatus]
  | DispatchResult.fatal =>
      [if DEBUGGER_SUPPORT
       then DebuggerStartWithFatalError (DispatchResult.getMessage r)
       else CerrLine (DispatchResult.getMessage r);
       DispatchResultGetStatus]
  | DispatchResult.invalid => []
  end.

End Core.

(** ** A small instance of the collaborators

    Used to run the model on concrete inputs: a state file is the list of
    strings still to be read, the hardware state is the string a state
    file's body holds, and the clock ticks in nanoseconds. *)

Module Fixture.

(** Truncation of a [double] to an integer, as a conversion to an integer
    tick count does it. *)
Definition Z_of_double (f : float) : Z :=
  match Prim2SF f with
  | S754_finite s m e =>
      cond_Zopp s (if 0 <=? e then Z.pos m * 2 ^ e else Z.pos m / 2 ^ (- e))
  | _ => 0
  end.

Definition getString (s : list string) : exc (string * list string) :=
  match s with
  | str :: rest => Value (str, rest)
  | [] => Raised "end of stream"
  end.

(** All-or-nothing: the body is read first, the hardware is replaced only
    when it reads well. *)
Definition load (s : list string) (m : string) : exc bool * string :=
  match s with
  | body :: _ => if String.eqb body "" then (Value false, m) else (Value true, body)
  | [] => (Raised "end of stream", m)
  end.

Definition result_ok : DispatchResult.t :=
  {| DispatchResult.getStatus := DispatchResult.ok;
     DispatchResult.getMessage := "";
     DispatchResult.getAddress := 0;
     DispatchResult.wasReadTrap := false;
     DispatchResult.getToolTip := "" |}.

#[export] Instance externals : Externals := {|
  Machine := string;
  Serializer := list string;
  ser_getString := getString;
  ser_putString := fun str s => Value (s ++ [str]);
  console_load := load;
  console_save := fun _ _ => Value true;
  console_fry := fun m => m;
  tia_newFramePending := fun _ => true;
  tia_framesSinceLastRender := fun _ => 1;
  tia_scanlinesLastFrame := fun _ => 262;
  tia_renderToFrameBuffer := fun m => m;
  worker_run := fun _ maxCycles _ m => (maxCycles, result_ok, m);
  clock_duration_of_seconds := fun s => Z_of_double (s * 1000000000)%float;
  seconds_of_clock_duration := fun d => (double_of_Z d / 1000000000)%float;
  DEBUGGER_SUPPORT := true
|}.

(** NTSC timing: 262 scanlines of 76 cycles, 60 frames a second. *)
Definition ntsc : EmulationTiming :=
  {| cyclesPerSecond := 1194720; cyclesPerFrame := 19912;
     maxCyclesPerTimeslice := 19912; minCyclesPerTimeslice := 4978 |}.

Definition pitfall : Console :=
  {| properties_Cartridge_Name := "Pitfall";
     cartridge_name := "4K";
     emulationTiming := ntsc;
     machine := "power-on" |}.

(** A program state with [pitfall] attached, reading state files from
    [files]. *)
Definition world (st : EventHandlerState) (slot : Z) (autoslot : bool)
    (files : string -> bool -> option (list string)) : World :=
  {| myConsole := Some pitfall; eh_state := st; eh_frying := false;
     settings := {[ "autoslot"%string := autoslot ]};
     stateDir := "/state/"; disk := files;
     myCurrentSlot := slot; myActiveMode := Off;
     myQuitLoop := false; events := [] |}.

(** The same with no console attached. *)
Definition bare (st : EventHandlerState) (slot : Z) (mode : Mode) : World :=
  {| myConsole := None; eh_state := st; eh_frying := false;
     settings := {[ "autoslot"%string := true ]};
     stateDir := "/state/"; disk := fun _ _ => Some [];
     myCurrentSlot := slot; myActiveMode := mode;
     myQuitLoop := false; events := [] |}.

(** A disk on which every file holds [content]. *)
Definition every_file (content : list string)
  : string -> bool -> option (list string) :=
  fun _ _ => Some content.

End Fixture.

(** ** Further definitions: the breakpoint registry

    What a consistent registry looks like from inside: every entry sits
    under the class of the key object it holds. *)

Module BreakpointMapInv.
Import BreakpointMap.

Definition keyed (m : t) : Prop :=
  map_Forall (fun k entry => bp_key (fst entry) = k) (myMap m).

(** The registries a debugger session can hold: built from an empty one by
    [add], [erase] and [clear]. *)
Definition built (ops : list op) : t := run ops create.

End BreakpointMapInv.

(** ** Further definitions: StateManager *)

Section StateManagerMoreDefs.

Context {X : Externals}.

(** The same console but for its hardware. *)
Definition same_cartridge (a b : option Console) : Prop :=
  match a, b with
  | Some c, Some c' =>
      properties_Cartridge_Name c' = properties_Cartridge_Name c
      /\ cartridge_name c' = cartridge_name c
      /\ emulationTiming c' = emulationTiming c
  | None, None => True
  | _, _ => False
  end.

(** What a call may not touch: the event handler, the settings, the
    directories and files, the state manager's slot and mode.  The calls
    made so far stay on record. *)
Definition keeps_session (w w' : World) : Prop :=
  eh_state w' = eh_state w /\ eh_frying w' = eh_frying w
  /\ settings w' = settings w /\ stateDir w' = stateDir w
  /\ disk w' = disk w /\ myCurrentSlot w' = myCurrentSlot w
  /\ myActiveMode w' = myActiveMode w /\ myQuitLoop w' = myQuitLoop w
  /\ exists made, events w' = events w ++ made.

(** From [w] to [w'] only the console's hardware and the record of calls
    have changed. *)
Definition only_hardware_and_calls (w w' : World) : Prop :=
  keeps_session w w' /\ same_cartridge (myConsole w) (myConsole w').

(** The messages shown among the calls made. *)
Definition messages (evs : list Event) : list string :=
  omap (fun e => match e with ShowMessage msg => Some msg | _ => None end) evs.

(** The slot-changing interface of the state manager, as a command
    language. *)
Inductive slot_op : Type :=
| DoLoadState (slot : Z)
| DoSaveState (slot : Z)
| DoChangeState
| DoUpdate
| DoToggleTimeMachine.

Definition apply_slot_op (o : slot_op) : M World unit :=
  match o with
  | DoLoadState slot => loadState slot
  | DoSaveState slot => saveState slot
  | DoChangeState => changeState
  | DoUpdate => update
  | DoToggleTimeMachine => toggleTimeMachine
  end.

(** The calls are made one after the other; a call that leaves by an
    exception has changed what it changed, and the next call follows.
    After undefined behaviour there is no program state to go on from. *)
Fixpoint run_slot_ops (ops : list slot_op) (w : World) : option World :=
  match ops with
  | [] => Some w
  | o :: rest =>
      match apply_slot_op o w with
      | (Undefined, _) => None
      | (_, w') => run_slot_ops rest w'
      end
  end.

(** The slot argument of a [saveState] call is below [INT_MAX]. *)
Definition slot_below_INT_MAX (o : slot_op) : Prop :=
  match o with
  | DoSaveState slot => slot < INT_MAX
  | _ => True
  end.

(** [n] calls of [changeState]. *)
Fixpoint changeState_times (n : nat) (w : World) : World :=
  match n with
  | O => w
  | S k => changeState_times k (snd (changeState w))
  end.

(** The settings key [toggleTimeMachine] writes and [reset] reads. *)
Definition timemachine_key (w : World) : string :=
  if getBool "dev.settings" w then "dev.timemachine" else "plr.timemachine".

End StateManagerMoreDefs.

(** ** Further definitions: the stream overloads, [reset] and the constructor *)

Section StateManagerStreams.

Context {X : Externals}.

(** [Serializer::operator bool]: whether the stream is usable. *)
Variable ser_good : Serializer -> bool.

(** [bool StateManager::loadState(Serializer& in)].  [&&] reads the name
    only after a matching header and calls [Console::load] only after a
    matching name. *)
Definition loadState_from (in0 : Serializer) : M World bool :=
  try_catch
    (has <- gets hasConsole ;;
     if has then
       if ser_good in0 then
         r1 <- getString in0 ;;
         if String.eqb (fst r1) STATE_HEADER then
           r2 <- getString (snd r1) ;;
           c <- console ;;
           if String.eqb (fst r2) (cartridge_name c)
           then Console_load (snd r2)
           else ret false
         else ret false
       else ret false
     else ret false)
    (emit (CerrLine "ERROR: StateManager::loadState(Serializer&)") ;;;
     ret false).

(** [bool StateManager::saveState(Serializer& out)] *)
Definition saveState_to (out0 : Serializer) : M World bool :=
  try_catch
    (has <- gets hasConsole ;;
     if has then
       if ser_good out0 then
         out1 <- putString STATE_HEADER out0 ;;
         c <- console ;;
         out2 <- putString (cartridge_name c) out1 ;;
         saved <- Console_save out2 ;;
         if saved then ret true else ret false
       else ret false
     else ret false)
    (emit (CerrLine "ERROR: StateManager::saveState(Serializer&)") ;;;
     ret false).

(** What makes [loadState(Serializer&)] return [true]. *)
Definition stream_loads (in0 : Serializer) (w : World) : Prop :=
  exists c in1 in2,
    hasConsole w = true /\ myConsole w = Some c /\ ser_good in0 = true
    /\ ser_getString in0 = Value (STATE_HEADER, in1)
    /\ ser_getString in1 = Value (cartridge_name c, in2)
    /\ fst (console_load in2 (machine c)) = Value true.

(** What makes [saveState(Serializer&)] return [true]. *)
Definition stream_saves (out0 : Serializer) (w : World) : Prop :=
  exists c out1 out2,
    hasConsole w = true /\ myConsole w = Some c /\ ser_good out0 = true
    /\ ser_putString STATE_HEADER out0 = Value out1
    /\ ser_putString (cartridge_name c) out1 = Value out2
    /\ console_save out2 (machine c) = Value true.

End StateManagerStreams.

Section StateManagerReset.

Context {X : Externals}.

(** The rewind manager the state manager owns, with
    [RewindManager::clear]. *)
Variable RewindManager : Type.
Variable rewind_clear : RewindManager -> RewindManager.

(** [void StateManager::reset()].  The line that would set [myCurrentSlot]
    to 0 is compiled out. *)
Definition reset : M (World * RewindManager) unit :=
  modify (fun s => (fst s, rewind_clear (snd s))) ;;;
  dev <- gets (fun s => getBool "dev.settings" (fst s)) ;;
  on <- gets (fun s => getBool (if dev then "dev.timemachine"
                                else "plr.timemachine") (fst s)) ;;
  modify (fun s => (set_myActiveMode (if on then TimeMachine else Off) (fst s),
                    snd s)).

(** [StateManager::StateManager(OSystem&)], given the rewind manager
    [make_unique] creates. *)
Definition StateManager_new (fresh : RewindManager)
  : M (World * RewindManager) unit :=
  modify (fun s => (set_myActiveMode Off (set_myCurrentSlot 0 (fst s)), fresh)) ;;;
  reset.

End StateManagerReset.

(** ** Further definitions: the scheduler *)

Section SchedulerMoreDefs.

Context {X : Externals}.

(** The hardware [dispatchEmulation] leaves: what the worker left, fried
    when the dispatch ended normally and frying is requested. *)
Definition hardware_after_dispatch (c : Console) (frying : bool) : Machine :=
  match DispatchResult.getStatus (snd (fst (worker_outcome c))) with
  | DispatchResult.ok =>
      if frying then console_fry (snd (worker_outcome c))
      else snd (worker_outcome c)
  | _ => snd (worker_outcome c)
  end.

End SchedulerMoreDefs.

(** A second instance of the collaborators: a state file takes two
    strings and then the disk is full, saving fails, the worker stops at a
    breakpoint after 1000 cycles, and frying leaves a mark on the
    hardware. *)
Module TrapFixture.

Definition result_trap : DispatchResult.t :=
  {| DispatchResult.getStatus := DispatchResult.debugger;
     DispatchResult.getMessage := "BP: $f000";
     DispatchResult.getAddress := 0xf000;
     DispatchResult.wasReadTrap := false;
     DispatchResult.getToolTip := "" |}.

Definition putString (str : string) (s : list string) : exc (list string) :=
  if (2 <=? length s)%nat then Raised "disk full" else Value (s ++ [str]).

(** Saving throws on hardware that was never run and returns [false]
    otherwise. *)
Definition save (s : list string) (m : string) : exc bool :=
  if String.eqb m "power-on" then Raised "disk full" else Value false.

#[export] Instance externals : Externals := {|
  Machine := string;
  Serializer := list string;
  ser_getString := Fixture.getString;
  ser_putString := putString;
  console_load := Fixture.load;
  console_save := save;
  console_fry := fun m => (m +:+ ", fried")%string;
  tia_newFramePending := fun _ => false;
  tia_framesSinceLastRender := fun _ => 0;
  tia_scanlinesLastFrame := fun _ => 262;
  tia_renderToFrameBuffer := fun m => m;
  worker_run := fun _ _ _ m => (1000, result_trap, (m +:+ ", stepped")%string);
  clock_duration_of_seconds :=
    fun s => Fixture.Z_of_double (s * 1000000000)%float;
  seconds_of_clock_duration := fun d => (double_of_Z d / 1000000000)%float;
  DEBUGGER_SUPPORT := true
|}.

Definition cartridge (hardware : string) : Console :=
  {| properties_Cartridge_Name := "Pitfall";
     cartridge_name := "4K";
     emulationTiming := Fixture.ntsc;
     machine := hardware |}.

(** Emulation is running on [hardware] with frying requested and
    [autoslot] set; every state file already holds [content]. *)
Definition world (hardware : string) (content : list string) : World :=
  {| myConsole := Some (cartridge hardware); eh_state := EMULATION;
     eh_frying := true;
     settings := {[ "autoslot"%string := true ]};
     stateDir := "/state/"; disk := fun _ _ => Some content;
     myCurrentSlot := 2; myActiveMode := Off;
     myQuitLoop := false; events := [] |}.

End TrapFixture.

(** ** Further definitions: NTSCFilter

    src/common/tv_filters/NTSCFilter.cxx.  The header is not among the
    files: the type of the fields of [AtariNTSC::Setup], the macros
    [SCALE_TO_100] and [SCALE_FROM_100] and the built-in setups are
    parameters. *)

Module NTSCFilter.

(** [NTSCFilter::Preset], the enumerators the file names. *)
Inductive Preset : Type :=
| PRESET_OFF | PRESET_COMPOSITE | PRESET_SVIDEO | PRESET_RGB | PRESET_BAD
| PRESET_CUSTOM.

Definition is_custom (p : Preset) : bool :=
  match p with PRESET_CUSTOM => true | _ => false end.

Section Filter.

(** The type of an adjustable value. *)
Variable V : Type.

(** [SCALE_TO_100] (its result is kept in a [uInt32]) and
    [SCALE_FROM_100]. *)
Variable SCALE_TO_100 : V -> Z.
Variable SCALE_FROM_100 : Z -> V.

(** [AtariNTSC::Setup], the fields the file reads and writes. *)
Record Setup : Type := {
  hue : V; saturation : V; contrast : V; brightness : V; sharpness : V;
  gamma : V; resolution : V; artifacts : V; fringing : V; bleed : V
}.

(** [AtariNTSC::TV_Composite], [TV_SVideo], [TV_RGB], [TV_Bad]. *)
Variable TV_Composite TV_SVideo TV_RGB TV_Bad : Setup.

(** [NTSCFilter], with the static [myCustomSetup] and, for [myNTSC], the
    setups it has been initialised with. *)
Record t : Type := {
  mySetup : Setup;
  myPreset : Preset;
  myCurrentAdjustable : Z;
  myCustomSetup : Setup;
  myNTSC : list Setup
}.

(** [NTSCFilter::NTSCFilter()]; [myCustomSetup] starts as [TV_Composite]. *)
Definition create : t :=
  {| mySetup := TV_Composite; myPreset := PRESET_OFF;
     myCurrentAdjustable := 0; myCustomSetup := TV_Composite;
     myNTSC := [] |}.

(** [AdjustableTag]: a name and a pointer to a field of [myCustomSetup],
    as the way to read and to write that field. *)
Record AdjustableTag : Type := {
  type : string;
  value : Setup -> V;
  set_value : V -> Setup -> Setup
}.

Definition set_contrast (v : V) (s : Setup) : Setup :=
  {| hue := hue s; saturation := saturation s; contrast := v;
     brightness := brightness s; sharpness := sharpness s; gamma := gamma s;
     resolution := resolution s; artifacts := artifacts s;
     fringing := fringing s; bleed := bleed s |}.
Definition set_brightness (v : V) (s : Setup) : Setup :=
  {| hue := hue s; saturation := saturation s; contrast := contrast s;
     brightness := v; sharpness := sharpness s; gamma := gamma s;
     resolution := resolution s; artifacts := artifacts s;
     fringing := fringing s; bleed := bleed s |}.
Definition set_hue (v : V) (s : Setup) : Setup :=
  {| hue := v; saturation := saturation s; contrast := contrast s;
     brightness := brightness s; sharpness := sharpness s; gamma := gamma s;
     resolution := resolution s; artifacts := artifacts s;
     fringing := fringing s; bleed := bleed s |}.
Definition set_saturation (v : V) (s : Setup) : Setup :=
  {| hue := hue s; saturation := v; contrast := contrast s;
     brightness := brightness s; sharpness := sharpness s; gamma := gamma s;
     resolution := resolution s; artifacts := artifacts s;
     fringing := fringing s; bleed := bleed s |}.
Definition set_gamma (v : V) (s : Setup) : Setup :=
  {| hue := hue s; saturation := saturation s; contrast := contrast s;
     brightness := brightness s; sharpness := sharpness s; gamma := v;
     resolution := resolution s; artifacts := artifacts s;
     fringing := fringing s; bleed := bleed s |}.
Definition set_sharpness (v : V) (s : Setup) : Setup :=
  {| hue := hue s; saturation := saturation s; contrast := contrast s;
     brightness := brightness s; sharpness := v; gamma := gamma s;
     resolution := resolution s; artifacts := artifacts s;
     fringing := fringing s; bleed := bleed s |}.
Definition set_resolution (v : V) (s : Setup) : Setup :=
  {| hue := hue s; saturation := saturation s; contrast := contrast s;
     brightness := brightness s; sharpness := sharpness s; gamma := gamma s;
     resolution := v; artifacts := artifacts s;
     fringing := fringing s; bleed := bleed s |}.
Definition set_artifacts (v : V) (s : Setup) : Setup :=
  {| hue := hue s; saturation := saturation s; contrast := contrast s;
     brightness := brightness s; sharpness := sharpness s; gamma := gamma s;
     resolution := resolution s; artifacts := v;
     fringing := fringing s; bleed := bleed s |}.
Definition set_fringing (v : V) (s : Setup) : Setup :=
  {| hue := hue s; saturation := saturation s; contrast := contrast s;
     brightness := brightness s; sharpness := sharpness s; gamma := gamma s;
     resolution := resolution s; artifacts := artifacts s;
     fringing := v; bleed := bleed s |}.
Definition set_bleed (v : V) (s : Setup) : Setup :=
  {| hue := hue s; saturation := saturation s; contrast := contrast s;
     brightness := brightness s; sharpness := sharpness s; gamma := gamma s;
     resolution := resolution s; artifacts := artifacts s;
     fringing := fringing s; bleed := v |}.

(** [const AdjustableTag ourCustomAdjustables[10]] *)
Definition ourCustomAdjustables : list AdjustableTag :=
  [ {| type := "contrast"; value := contrast; set_value := set_contrast |};
    {| type := "brightness"; value := brightness; set_value := set_brightness |};
    {| type := "hue"; value := hue; set_value := set_hue |};
    {| type := "saturation"; value := saturation; set_value := set_saturation |};
    {| type := "gamma"; value := gamma; set_value := set_gamma |};
    {| type := "sharpness"; value := sharpness; set_value := set_sharpness |};
    {| type := "resolution"; value := resolution; set_value := set_resolution |};
    {| type := "artifacts"; value := artifacts; set_value := set_artifacts |};
    {| type := "fringing"; value := fringing; set_value := set_fringing |};
    {| type := "bleeding"; value := bleed; set_value := set_bleed |} ].

Definition with_selection (i : Z) (f : t) : t :=
  {| mySetup := mySetup f; myPreset := myPreset f;
     myCurrentAdjustable := i; myCustomSetup := myCustomSetup f;
     myNTSC := myNTSC f |}.

Definition with_custom (s : Setup) (f : t) : t :=
  {| mySetup := mySetup f; myPreset := myPreset f;
     myCurrentAdjustable := myCurrentAdjustable f; myCustomSetup := s;
     myNTSC := myNTSC f |}.

(** [string NTSCFilter::setPreset(Preset preset)]: the preset is stored
    first; for [PRESET_OFF] the function returns before
    [myNTSC.initialize]. *)
Definition setPreset (preset : Preset) (f : t) : string * t :=
  let chosen (s : Setup) (msg : string) :=
    (msg, {| mySetup := s; myPreset := preset;
             myCurrentAdjustable := myCurrentAdjustable f;
             myCustomSetup := myCustomSetup f;
             myNTSC := myNTSC f ++ [s] |}) in
  match preset with
  | PRESET_COMPOSITE => chosen TV_Composite "COMPOSITE"
  | PRESET_SVIDEO => chosen TV_SVideo "S-VIDEO"
  | PRESET_RGB => chosen TV_RGB "RGB"
  | PRESET_BAD => chosen TV_Bad "BAD ADJUST"
  | PRESET_CUSTOM => chosen (myCustomSetup f) "CUSTOM"
  | PRESET_OFF =>
      ("disabled", {| mySetup := mySetup f; myPreset := preset;
                      myCurrentAdjustable := myCurrentAdjustable f;
                      myCustomSetup := myCustomSetup f;
                      myNTSC := myNTSC f |})
  end.

(** [string NTSCFilter::getPreset() const] *)
Definition getPreset (f : t) : string :=
  match myPreset f with
  | PRESET_COMPOSITE => "COMPOSITE"
  | PRESET_SVIDEO => "S-VIDEO"
  | PRESET_RGB => "RGB"
  | PRESET_BAD => "BAD ADJUST"
  | PRESET_CUSTOM => "CUSTOM"
  | PRESET_OFF => "Disabled"
  end.

Definition not_selected : string := "'Custom' TV mode not selected".

(** [ourCustomAdjustables[i]]; an index outside the table is undefined
    behaviour, [None] here. *)
Definition adjustable_at (i : Z) : option AdjustableTag :=
  if (0 <=? i) && (i <? 10) then nth_error ourCustomAdjustables (Z.to_nat i)
  else None.

Definition selected_message (i : Z) : option string :=
  match adjustable_at i with
  | Some tag => Some ("Custom adjustable '" +:+ type tag +:+ "' selected")
  | None => None
  end.

(** [string NTSCFilter::setNextAdjustable()]; the result is [None] when
    the table is read outside its bounds. *)
Definition setNextAdjustable (f : t) : option string * t :=
  if negb (is_custom (myPreset f)) then (Some not_selected, f)
  else
    let i := to_uInt32 (myCurrentAdjustable f + 1) mod 10 in
    (selected_message i, with_selection i f).

(** [string NTSCFilter::setPreviousAdjustable()] *)
Definition setPreviousAdjustable (f : t) : option string * t :=
  if negb (is_custom (myPreset f)) then (Some not_selected, f)
  else
    let i := if myCurrentAdjustable f =? 0 then 9
             else to_uInt32 (myCurrentAdjustable f - 1) in
    (selected_message i, with_selection i f).

(** The tail shared by [increaseAdjustable] and [decreaseAdjustable]: the
    new value is written through the table's pointer, the message is
    built, and [setPreset(myPreset)] takes the custom setup into use. *)
Definition write_adjustable (newval : Z) (f : t) : option string * t :=
  match adjustable_at (myCurrentAdjustable f) with
  | Some tag =>
      let f1 := with_custom (set_value tag (SCALE_FROM_100 newval)
                                       (myCustomSetup f)) f in
      (Some ("Custom '" +:+ type tag +:+ "' set to " +:+ show_int newval),
       snd (setPreset (myPreset f1) f1))
  | None => (None, f)
  end.

Definition current_scaled (f : t) : option Z :=
  match adjustable_at (myCurrentAdjustable f) with
  | Some tag => Some (to_uInt32 (SCALE_TO_100 (value tag (myCustomSetup f))))
  | None => None
  end.

(** [string NTSCFilter::increaseAdjustable()]: [newval += 2] in [uInt32],
    then capped at 100. *)
Definition increaseAdjustable (f : t) : option string * t :=
  if negb (is_custom (myPreset f)) then (Some not_selected, f)
  else
    match current_scaled f with
    | Some old =>
        let newval := to_uInt32 (old + 2) in
        let newval := if 100 <? newval then 100 else newval in
        write_adjustable newval f
    | None => (None, f)
    end.

(** [string NTSCFilter::decreaseAdjustable()] *)
Definition decreaseAdjustable (f : t) : option string * t :=
  if negb (is_custom (myPreset f)) then (Some not_selected, f)
  else
    match current_scaled f with
    | Some old =>
        let newval := if old <? 2 then 0 else to_uInt32 (old - 2) in
        write_adjustable newval f
    | None => (None, f)
    end.

(** From [f] to [f'] the adjustable [tag], which is the selected one, has
    been set to [newval] on the scale of 100 and no other adjustable has
    changed; the custom setup is in use and the filter has been initialised
    with it. *)
Definition adjusted (f f' : t) (tag : AdjustableTag) (newval : Z) : Prop :=
  value tag (myCustomSetup f') = SCALE_FROM_100 newval
  /\ (forall j tag',
        j <> myCurrentAdjustable f -> adjustable_at j = Some tag' ->
        value tag' (myCustomSetup f') = value tag' (myCustomSetup f))
  /\ mySetup f' = myCustomSetup f'
  /\ myNTSC f' = myNTSC f ++ [myCustomSetup f']
  /\ myPreset f' = myPreset f
  /\ myCurrentAdjustable f' = myCurrentAdjustable f.

End Filter.

End NTSCFilter.

(** ** Further inputs to run the model on *)

Module MoreFixture.
Import NTSCFilter.

(** A disk on which no file can be opened. *)
Definition no_files : string -> bool -> option (list string) :=
  fun _ _ => None.

(** A setup with every adjustable at [v], for adjustable values that are
    their own reading on the scale of 100. *)
Definition flat (v : Z) : Setup Z :=
  {| hue := v; saturation := v; contrast := v; brightness := v;
     sharpness := v; gamma := v; resolution := v; artifacts := v;
     fringing := v; bleed := v |}.

(** A filter switched to the custom preset, with the given selection and
    the custom setup at [v] throughout. *)
Definition custom (selection v : Z) : t Z :=
  {| mySetup := flat v; myPreset := PRESET_CUSTOM;
     myCurrentAdjustable := selection; myCustomSetup := flat v;
     myNTSC := [flat v] |}.

End MoreFixture.

(** * Properties *)

(** ** Fixed-width conversions *)

(** Closed range conditions are settled by evaluation. *)
Ltac in_range :=
  unfold uInt8_range, uInt16_range, uInt32_range;
  vm_compute; split; [discriminate | reflexivity].

Lemma to_uInt8_id z : uInt8_range z -> to_uInt8 z = z.
Proof. intros H. apply Z.mod_small. exact H. Qed.

Lemma to_uInt16_id z : uInt16_range z -> to_uInt16 z = z.
Proof. intros H. apply Z.mod_small. exact H. Qed.

Lemma to_uInt32_id z : uInt32_range z -> to_uInt32 z = z.
Proof. intros H. apply Z.mod_small. exact H. Qed.

Lemma int_rangeb_spec z : int_rangeb z = true <-> int_range z.
Proof.
  unfold int_rangeb, int_range.
  rewrite andb_true_iff, !Z.leb_le. reflexivity.
Qed.

(** An [int] expression has its mathematical value when [int] holds it. *)
Lemma int_value_in_range {S} (z : Z) (s : S) :
  int_range z -> int_value z s = (Done z, s).
Proof.
  intros H. apply int_rangeb_spec in H. unfold int_value. rewrite H.
  reflexivity.
Qed.

Lemma int_value_overflow {S} (z : Z) (s : S) :
  ~ int_range z -> int_value z s = (Undefined, s).
Proof.
  intros H. unfold int_value. destruct (int_rangeb z) eqn:E; [|reflexivity].
  apply int_rangeb_spec in E. contradiction.
Qed.

(** ** BreakpointMap *)

Module BreakpointMapFacts.
Import BreakpointMap.

(** Masking with [ADDRESS_MASK] keeps the address modulo 8 KiB. *)
Lemma mask_is_mod a : Z.land a ADDRESS_MASK = a mod 0x2000.
Proof. change ADDRESS_MASK with (Z.ones 13). apply Z.land_ones. lia. Qed.

(** [operator==] holds exactly between breakpoints of one class. *)
Lemma bp_eqb_key a b : bp_eqb a b = true <-> bp_key a = bp_key b.
Proof.
  unfold bp_eqb, bp_key. rewrite andb_true_iff, !Z.eqb_eq.
  split; [intros [-> ->]; reflexivity | intros [= -> ->]; auto].
Qed.

(** Equal breakpoints hash alike, as [unordered_map] requires. *)
Lemma hash_respects_eqb h a b :
  bp_eqb a b = true -> BreakpointHash h a = BreakpointHash h b.
Proof.
  intros [= Ha Hb]%bp_eqb_key. unfold BreakpointHash. rewrite Ha, Hb.
  reflexivity.
Qed.

Lemma lookup_map_assign_eq bp flags mp :
  exists stored, map_assign bp flags mp !! bp_key bp = Some (stored, flags).
Proof.
  unfold map_assign. destruct (mp !! bp_key bp) as [[stored old]|].
  - exists stored. apply lookup_insert_eq.
  - exists bp. apply lookup_insert_eq.
Qed.

Lemma check_add bp flags m : check bp (add bp flags m) = true.
Proof.
  unfold check, add; simpl.
  destruct (lookup_map_assign_eq bp (to_uInt32 flags) (myMap m)) as [s ->].
  reflexivity.
Qed.

Lemma get_add bp flags m : get bp (add bp flags m) = to_uInt32 flags.
Proof.
  unfold get, add; simpl.
  destruct (lookup_map_assign_eq bp (to_uInt32 flags) (myMap m)) as [s ->].
  reflexivity.
Qed.

Lemma check_erase bp m : check bp (erase bp m) = false.
Proof. unfold check, erase; simpl. rewrite lookup_delete_eq. reflexivity. Qed.

Lemma get_erase bp m : get bp (erase bp m) = 0.
Proof. unfold get, erase; simpl. rewrite lookup_delete_eq. reflexivity. Qed.

(** Every operation reads the breakpoint through its class only. *)
Lemma check_key a b m : bp_key a = bp_key b -> check a m = check b m.
Proof. unfold check. intros ->. reflexivity. Qed.

Lemma get_key a b m : bp_key a = bp_key b -> get a m = get b m.
Proof. unfold get. intros ->. reflexivity. Qed.

Lemma erase_key a b m : bp_key a = bp_key b -> erase a m = erase b m.
Proof. unfold erase. intros ->. reflexivity. Qed.

Lemma key_of_congruent a1 a2 b :
  uInt16_range a1 -> uInt16_range a2 ->
  a1 mod 0x2000 = a2 mod 0x2000 ->
  bp_key (mkBreakpoint a1 b) = bp_key (mkBreakpoint a2 b).
Proof.
  intros H1 H2 Hc. unfold bp_key, mkBreakpoint; simpl.
  rewrite !to_uInt16_id, !mask_is_mod, Hc by assumption. reflexivity.
Qed.

(** C3: for a valid address, bank and flag value, [add] then [check] gives
    [true] and [get] gives back exactly the flags; [erase] then [check]
    gives [false], whatever the map held. *)
Theorem add_check_get_erase_check (m : t) (a b f : Z) :
  uInt16_range a -> uInt8_range b -> uInt32_range f ->
  check_at a b (add_at a b f m) = true
  /\ get_at a b (add_at a b f m) = f
  /\ check_at a b (erase_at a b m) = false
  /\ check_at a b (erase_at a b (add_at a b f m)) = false.
Proof.
  intros _ _ Hf. unfold check_at, get_at, add_at, erase_at.
  rewrite check_add, get_add, !check_erase, to_uInt32_id by exact Hf.
  repeat split.
Qed.

Lemma add_check_get_erase_check_witness :
  check_at 0x1234 3 (add_at 0x1234 3 ONE_SHOT create) = true
  /\ get_at 0x1234 3 (add_at 0x1234 3 ONE_SHOT create) = ONE_SHOT
  /\ check_at 0x1234 3 (erase_at 0x1234 3 create) = false
  /\ check_at 0x1234 3 (erase_at 0x1234 3 (add_at 0x1234 3 ONE_SHOT create))
     = false.
Proof.
  apply (add_check_get_erase_check create 0x1234 3 ONE_SHOT); in_range.
Defined.

(** C4: two breakpoints with the same bank whose addresses agree modulo
    [0x2000] are one key: [operator==] holds between them, they hash alike,
    [check], [get] and [erase] cannot tell them apart on any map, and after
    adding one the other is found with the flags given, and erasing the
    other removes the one added. *)
Theorem congruent_addresses_same_key (a1 a2 b f : Z) :
  uInt16_range a1 -> uInt16_range a2 -> uInt8_range b -> uInt32_range f ->
  a1 mod 0x2000 = a2 mod 0x2000 ->
  bp_eqb (mkBreakpoint a1 b) (mkBreakpoint a2 b) = true
  /\ (forall h, BreakpointHash h (mkBreakpoint a1 b)
                = BreakpointHash h (mkBreakpoint a2 b))
  /\ forall m : t,
       check_at a2 b m = check_at a1 b m
       /\ get_at a2 b m = get_at a1 b m
       /\ erase_at a2 b m = erase_at a1 b m
       /\ check_at a2 b (add_at a1 b f m) = true
       /\ get_at a2 b (add_at a1 b f m) = f
       /\ check_at a1 b (erase_at a2 b (add_at a1 b f m)) = false
       /\ size (add_at a2 b f (add_at a1 b f m)) = size (add_at a1 b f m).
Proof.
  intros H1 H2 Hb Hf Hc.
  pose proof (key_of_congruent a1 a2 b H1 H2 Hc) as Hk.
  pose proof (proj2 (bp_eqb_key _ _) Hk) as He.
  split; [exact He|]. split; [intros h; apply hash_respects_eqb, He|].
  intros m. unfold check_at, get_at, erase_at, add_at.
  rewrite (check_key _ _ m (eq_sym Hk)), (get_key _ _ m (eq_sym Hk)),
    (erase_key _ _ m (eq_sym Hk)).
  rewrite (check_key _ _ (add _ f m) (eq_sym Hk)),
    (get_key _ _ (add _ f m) (eq_sym Hk)),
    (erase_key _ _ (add _ f m) (eq_sym Hk)).
  rewrite check_add, get_add, check_erase, to_uInt32_id by exact Hf.
  repeat split.
  unfold size, add, map_assign; simpl. rewrite <- Hk.
  destruct (myMap m !! bp_key (mkBreakpoint a1 b)) as [[s o]|];
    rewrite lookup_insert_eq, insert_insert_eq; reflexivity.
Qed.

Lemma congruent_addresses_same_key_witness :
  bp_eqb (mkBreakpoint 0x1000 0) (mkBreakpoint 0x3000 0) = true
  /\ (forall h, BreakpointHash h (mkBreakpoint 0x1000 0)
                = BreakpointHash h (mkBreakpoint 0x3000 0))
  /\ forall m : t,
       check_at 0x3000 0 m = check_at 0x1000 0 m
       /\ get_at 0x3000 0 m = get_at 0x1000 0 m
       /\ erase_at 0x3000 0 m = erase_at 0x1000 0 m
       /\ check_at 0x3000 0 (add_at 0x1000 0 ONE_SHOT m) = true
       /\ get_at 0x3000 0 (add_at 0x1000 0 ONE_SHOT m) = ONE_SHOT
       /\ check_at 0x1000 0 (erase_at 0x3000 0 (add_at 0x1000 0 ONE_SHOT m))
          = false
       /\ size (add_at 0x3000 0 ONE_SHOT (add_at 0x1000 0 ONE_SHOT m))
          = size (add_at 0x1000 0 ONE_SHOT m).
Proof.
  apply (congruent_addresses_same_key 0x1000 0x3000 0 ONE_SHOT);
    first [reflexivity | in_range].
Defined.

(** The flag follows the commands: it is set by an [add] and by nothing
    else. *)
Lemma isInitialized_run ops m :
  isInitialized (run ops m) = isInitialized m || existsb is_OpAdd ops.
Proof.
  revert m. induction ops as [|o ops IH]; intros m; simpl.
  - rewrite orb_false_r. reflexivity.
  - unfold run in IH |- *. simpl. rewrite IH.
    destruct o; simpl; try reflexivity.
    rewrite orb_true_r. reflexivity.
Qed.

(** C9: [isInitialized] is [false] on a new map and [true] after an [add];
    no later sequence of [add], [erase] and [clear] brings it back to
    [false], so a map emptied by [clear] has size 0 and still reports
    [true]. *)
Theorem isInitialized_latches :
  isInitialized create = false
  /\ (forall m bp f, isInitialized (add bp f m) = true)
  /\ (forall m bp f ops, isInitialized (run ops (add bp f m)) = true)
  /\ (forall m bp f bp', isInitialized (erase bp' (add bp f m)) = true)
  /\ (forall m bp f ops,
        isInitialized (clear (run ops (add bp f m))) = true
        /\ size (clear (run ops (add bp f m))) = 0%nat).
Proof.
  split; [reflexivity|]. split; [reflexivity|].
  split; [intros; rewrite isInitialized_run; reflexivity|].
  split; [reflexivity|].
  intros m bp f ops. split.
  - change (isInitialized (run ops (add bp f m)) = true).
    rewrite isInitialized_run. reflexivity.
  - unfold size, clear; simpl. apply map_size_empty.
Qed.

End BreakpointMapFacts.

(** ** StateManager *)

Section StateManagerFacts.

Context {X : Externals}.

Lemma hasConsole_attached w c :
  myConsole w = Some c -> eh_state w <> LAUNCHER -> hasConsole w = true.
Proof.
  intros Hc Hs. unfold hasConsole. rewrite Hc.
  destruct (eh_state w); try reflexivity. contradiction.
Qed.

Lemma set_machine_same w c :
  myConsole w = Some c -> set_machine (machine c) w = w.
Proof.
  intros Hc. destruct w as [oc st fr se sd dk cs am q ev]; simpl in *.
  subst oc. destruct c; reflexivity.
Qed.


Lemma append_inv_head (p a b : string) : p +:+ a = p +:+ b -> a = b.
Proof.
  induction p as [|ch p IH]; simpl; intros H; [exact H|].
  injection H as H. apply IH, H.
Qed.

(** The prologue shared by [loadState] and [saveState]: with a console
    attached the state file of the effective slot is opened. *)
Lemma loadState_opened w c slot in0 :
  myConsole w = Some c -> eh_state w <> LAUNCHER ->
  disk w (state_file (stateDir w) c (effective_slot slot w)) true = Some in0 ->
  loadState slot w =
    (buf <- try_catch
              (loadState_try (effective_slot slot w) in0)
              (ret ("Invalid data in state "
                    +:+ show_int (effective_slot slot w) +:+ " file")) ;;
     showMessage buf)
    (log (OpenSerializer
            (state_file (stateDir w) c (effective_slot slot w)) true) w).
Proof.
  intros Hc Hs Hd. unfold loadState, effective_slot in *.
  unfold bind at 1. unfold gets at 1. rewrite (hasConsole_attached w c Hc Hs).
  unfold bind at 1. unfold gets at 1.
  unfold bind at 1. unfold gets at 1.
  unfold bind at 1. unfold console at 1. rewrite Hc.
  unfold bind at 1. unfold openSerializer, emit, modify, gets.
  unfold bind at 1. change (disk (log ?e w)) with (disk w).
  rewrite Hd. reflexivity.
Qed.



Lemma loadState_try_body n in0 in1 in2 c w :
  myConsole w = Some c ->
  ser_getString in0 = Value (STATE_HEADER, in1) ->
  ser_getString in1 = Value (cartridge_name c, in2) ->
  loadState_try n in0 w =
    (loaded <- lift_exc (fst (console_load in2 (machine c))) ;;
     if loaded then ret ("State " +:+ show_int n +:+ " loaded")
     else ret ("Invalid data in state " +:+ show_int n +:+ " file"))
    (set_machine (snd (console_load in2 (machine c)))
       (log ConsoleLoad (log GetString (log GetString w)))).
Proof.
  intros Hc Hg0 Hg1.
  unfold loadState_try, getString, Console_load, emit, modify, bind, console.
  rewrite Hg0. simpl. rewrite Hg1. simpl. rewrite Hc.
  rewrite String.eqb_refl. simpl. rewrite Hc.
  destruct (fst (console_load in2 (machine c))) as [[|]|what]; reflexivity.
Qed.

(** The three refusals are told apart by their text, and none reads like
    the message of a completed load. *)
Lemma refusal_messages_distinct n :
  let incompatible := "Incompatible state " +:+ show_int n +:+ " file" in
  let wrong_rom := "State " +:+ show_int n +:+ " file doesn't match current ROM" in
  let invalid := "Invalid data in state " +:+ show_int n +:+ " file" in
  let loaded := "State " +:+ show_int n +:+ " loaded" in
  incompatible <> wrong_rom /\ incompatible <> invalid /\ wrong_rom <> invalid
  /\ incompatible <> loaded /\ wrong_rom <> loaded /\ invalid <> loaded.
Proof.
  intros incompatible wrong_rom invalid loaded.
  unfold incompatible, wrong_rom, invalid, loaded.
  repeat split; try (simpl; discriminate).
  intros H. do 2 apply append_inv_head in H. discriminate H.
Qed.


(** C10: when [hasConsole()] is false, [loadState] and [saveState] return
    at once: the program state, with the current slot, the settings and
    the record of files opened, strings written and messages shown, is
    what it was. *)
Theorem no_console_no_effect (w : World) (slot : Z) :
  hasConsole w = false ->
  loadState slot w = (Done tt, w) /\ saveState slot w = (Done tt, w).
Proof.
  intros H. unfold loadState, saveState, bind, gets. rewrite H.
  split; reflexivity.
Qed.

(** C6: in [TimeMachine] mode [update] makes one call,
    [addState("Time Machine", true)], and changes nothing else; in [Off]
    mode it changes nothing at all. *)
Theorem update_by_mode (w : World) :
  (myActiveMode w = TimeMachine ->
     update w = (Done tt, log (RewindAddState "Time Machine" true) w)
     /\ addState_calls (events (snd (update w)))
        = addState_calls (events w) ++ [("Time Machine"%string, true)])
  /\ (myActiveMode w = Off -> update w = (Done tt, w)).
Proof.
  unfold update, bind, gets, RewindManager_addState, emit, modify.
  split; intros ->; [split|]; try reflexivity.
  simpl. unfold addState_calls. rewrite omap_app. reflexivity.
Qed.

Lemma saveState_negative_slot w slot :
  slot < 0 -> saveState slot w = saveState (myCurrentSlot w) w.
Proof.
  intros H. unfold saveState, bind, gets.
  destruct (hasConsole w); [|reflexivity].
  apply Z.ltb_lt in H. rewrite H.
  destruct (myCurrentSlot w <? 0); reflexivity.
Qed.

Lemma saveState_written w c slot out0 out1 out2 :
  myConsole w = Some c -> eh_state w <> LAUNCHER ->
  disk w (state_file (stateDir w) c (effective_slot slot w)) false = Some out0 ->
  ser_putString STATE_HEADER out0 = Value out1 ->
  ser_putString (cartridge_name c) out1 = Value out2 ->
  console_save out2 (machine c) = Value true ->
  saveState slot w =
    (autoslot <- gets (getBool "autoslot") ;;
     if autoslot then
       next <- int_value (effective_slot slot w + 1) ;;
       modify (set_myCurrentSlot (Z.rem next 10)) ;;;
       showMessage ("State " +:+ show_int (effective_slot slot w) +:+ " saved"
                    +:+ ", switching to slot "
                    +:+ show_int (effective_slot slot w))
     else
       showMessage ("State " +:+ show_int (effective_slot slot w) +:+ " saved"))
    (log ConsoleSave
       (log (PutString (cartridge_name c))
          (log (PutString STATE_HEADER)
             (log (OpenSerializer
                     (state_file (stateDir w) c (effective_slot slot w))
                     false) w)))).
Proof.
  intros Hc Hs Hd Hp0 Hp1 Hsave.
  pose proof (hasConsole_attached w c Hc Hs) as Hh.
  unfold saveState, saveState_try, Console_save, putString, openSerializer,
    showMessage, console, emit, modify, gets, bind, try_catch, lift_exc, ret,
    effective_slot in *.
  repeat first [ rewrite Hh | rewrite Hc | rewrite Hd | rewrite Hp0
               | rewrite Hp1 | rewrite Hsave | progress simpl ].
  reflexivity.
Qed.

(** C5: [saveState] with a negative slot works on [myCurrentSlot]: it is
    the call [saveState(myCurrentSlot)], and the file written is the one
    numbered [myCurrentSlot].  When the file opens, header and name are
    written and [Console::save] returns [true], then with [autoslot] set
    the current slot becomes [(n + 1) % 10] for the slot [n] just saved,
    the circular successor of [n] among the ten slots, provided [n + 1]
    is a value of [int]; for [n = INT_MAX] the addition overflows and
    the call has undefined behaviour.  With [autoslot] unset the current
    slot stays, for every [n]. *)
Theorem saveState_slot_and_autoslot (w : World) (c : Console) (slot : Z)
    (out0 out1 out2 : Serializer) :
  let n := effective_slot slot w in
  let written :=
    log ConsoleSave
      (log (PutString (cartridge_name c))
         (log (PutString STATE_HEADER)
            (log (OpenSerializer (state_file (stateDir w) c n) false) w))) in
  myConsole w = Some c -> eh_state w <> LAUNCHER ->
  disk w (state_file (stateDir w) c n) false = Some out0 ->
  ser_putString STATE_HEADER out0 = Value out1 ->
  ser_putString (cartridge_name c) out1 = Value out2 ->
  console_save out2 (machine c) = Value true ->
  (slot < 0 ->
     n = myCurrentSlot w /\ saveState slot w = saveState (myCurrentSlot w) w)
  /\ (getBool "autoslot" w = true -> int_range (n + 1) ->
        saveState slot w
        = (Done tt,
           log (ShowMessage ("State " +:+ show_int n +:+ " saved"
                             +:+ ", switching to slot " +:+ show_int n))
             (set_myCurrentSlot (Z.rem (n + 1) 10) written))
        /\ myCurrentSlot (snd (saveState slot w)) = Z.rem (n + 1) 10
        /\ (0 <= n ->
              myCurrentSlot (snd (saveState slot w)) = (n + 1) mod 10
              /\ 0 <= myCurrentSlot (snd (saveState slot w)) < 10))
  /\ (getBool "autoslot" w = true -> ~ int_range (n + 1) ->
        fst (saveState slot w) = Undefined)
  /\ (getBool "autoslot" w = false ->
        saveState slot w
        = (Done tt,
           log (ShowMessage ("State " +:+ show_int n +:+ " saved")) written)
        /\ myCurrentSlot (snd (saveState slot w)) = myCurrentSlot w).
Proof.
  intros n written Hc Hs Hd Hp0 Hp1 Hsave.
  pose proof (saveState_written w c slot out0 out1 out2 Hc Hs Hd Hp0 Hp1 Hsave)
    as Hw.
  fold n in Hw. fold written in Hw.
  assert (Ha : getBool "autoslot" written = getBool "autoslot" w)
    by reflexivity.
  split; [|split; [|split]].
  - intros Hneg. split; [|apply saveState_negative_slot, Hneg].
    unfold n, effective_slot. apply Z.ltb_lt in Hneg. rewrite Hneg.
    reflexivity.
  - intros Hauto Hint.
    assert (Heq : saveState slot w
                  = (Done tt,
                     log (ShowMessage ("State " +:+ show_int n +:+ " saved"
                                       +:+ ", switching to slot "
                                       +:+ show_int n))
                       (set_myCurrentSlot (Z.rem (n + 1) 10) written))).
    { rewrite Hw. unfold bind at 1. unfold gets at 1.
      rewrite Ha, Hauto. unfold bind at 1.
      rewrite (int_value_in_range _ _ Hint). reflexivity. }
    rewrite Heq. split; [reflexivity|]. split; [reflexivity|].
    intros Hn. simpl. rewrite Z.rem_mod_nonneg by lia.
    split; [reflexivity|]. apply Z.mod_pos_bound. lia.
  - intros Hauto Hint. rewrite Hw. unfold bind at 1. unfold gets at 1.
    rewrite Ha, Hauto. unfold bind at 1.
    rewrite (int_value_overflow _ _ Hint). reflexivity.
  - intros Hauto.
    assert (Heq : saveState slot w
                  = (Done tt,
                     log (ShowMessage ("State " +:+ show_int n +:+ " saved"))
                       written)).
    { rewrite Hw. unfold bind at 1. unfold gets at 1.
      rewrite Ha, Hauto. reflexivity. }
    rewrite Heq. split; reflexivity.
Qed.

End StateManagerFacts.

(** *** The StateManager facts on concrete state files *)

Module StateManagerRuns.
Import Fixture.



Lemma no_console_no_effect_witness :
  (loadState (-1) (bare EMULATION 4 Off) = (Done tt, bare EMULATION 4 Off)
   /\ saveState (-1) (bare EMULATION 4 Off) = (Done tt, bare EMULATION 4 Off))
  /\ (loadState 2 (world LAUNCHER 4 true (every_file []))
      = (Done tt, world LAUNCHER 4 true (every_file []))
      /\ saveState 2 (world LAUNCHER 4 true (every_file []))
         = (Done tt, world LAUNCHER 4 true (every_file []))).
Proof.
  split.
  - exact (no_console_no_effect (bare EMULATION 4 Off) (-1) eq_refl).
  - exact (no_console_no_effect (world LAUNCHER 4 true (every_file [])) 2
             eq_refl).
Defined.

Lemma update_by_mode_witness :
  (update (bare EMULATION 0 TimeMachine)
   = (Done tt, log (RewindAddState "Time Machine" true)
                 (bare EMULATION 0 TimeMachine))
   /\ addState_calls (events (snd (update (bare EMULATION 0 TimeMachine))))
      = [("Time Machine"%string, true)])
  /\ update (bare EMULATION 0 Off) = (Done tt, bare EMULATION 0 Off).
Proof.
  split.
  - exact (proj1 (update_by_mode (bare EMULATION 0 TimeMachine)) eq_refl).
  - exact (proj2 (update_by_mode (bare EMULATION 0 Off)) eq_refl).
Defined.

(** Slot 9 is current: a save to the current slot wraps round to slot 0;
    without [autoslot] the current slot stays; a save to slot [INT_MAX]
    with [autoslot] overflows. *)
Lemma saveState_slot_and_autoslot_witness :
  (saveState (-1) (world EMULATION 9 true (every_file []))
   = saveState 9 (world EMULATION 9 true (every_file []))
   /\ events (snd (saveState (-1) (world EMULATION 9 true (every_file []))))
      = [OpenSerializer "/state/Pitfall.st9" false; PutString STATE_HEADER;
         PutString "4K"; ConsoleSave;
         ShowMessage "State 9 saved, switching to slot 9"]
   /\ myCurrentSlot (snd (saveState (-1) (world EMULATION 9 true (every_file []))))
      = 0)
  /\ myCurrentSlot (snd (saveState 3 (world EMULATION 9 false (every_file []))))
     = 9
  /\ fst (saveState INT_MAX (world EMULATION 9 true (every_file [])))
     = Undefined.
Proof.
  split; [|split].
  - destruct (saveState_slot_and_autoslot
                (world EMULATION 9 true (every_file [])) pitfall (-1)
                [] [STATE_HEADER] [STATE_HEADER; "4K"]
                eq_refl ltac:(discriminate) eq_refl eq_refl eq_refl eq_refl)
      as (Hneg & Hauto & _).
    destruct (Hneg ltac:(lia)) as [_ Hsame].
    destruct (Hauto eq_refl ltac:(vm_compute; split; discriminate))
      as (Heq & _ & Hsucc).
    split; [exact Hsame|]. split; [rewrite Heq; reflexivity|].
    destruct (Hsucc ltac:(discriminate)) as [Hmod _]. exact Hmod.
  - destruct (saveState_slot_and_autoslot
                (world EMULATION 9 false (every_file [])) pitfall 3
                [] [STATE_HEADER] [STATE_HEADER; "4K"]
                eq_refl ltac:(discriminate) eq_refl eq_refl eq_refl eq_refl)
      as (_ & _ & _ & Hoff).
    exact (proj2 (Hoff eq_refl)).
  - destruct (saveState_slot_and_autoslot
                (world EMULATION 9 true (every_file [])) pitfall INT_MAX
                [] [STATE_HEADER] [STATE_HEADER; "4K"]
                eq_refl ltac:(discriminate) eq_refl eq_refl eq_refl eq_refl)
      as (_ & _ & Hover & _).
    apply (Hover eq_refl). vm_compute. intros [_ Hle]. apply Hle. reflexivity.
Defined.

End StateManagerRuns.

(** ** The scheduler loop *)

Section SchedulerFacts.

Context {X : Externals}.

Lemma set_machine_console w c m :
  myConsole w = Some c -> myConsole (set_machine m w) = Some (with_machine m c).
Proof. intros H. simpl. rewrite H. reflexivity. Qed.

(** [dispatchEmulation] up to the return of [EmulationWorker::stop]. *)
Lemma dispatchEmulation_stopped w c :
  myConsole w = Some c ->
  let pending := tia_newFramePending (machine c) in
  let t := emulationTiming c in
  exists w1,
    dispatchEmulation w =
      (handle_dispatch_result (snd (fst (worker_outcome c))) ;;;
       emit DispatchResultGetStatus ;;;
       frying <- gets eh_frying ;;
       (match DispatchResult.getStatus (snd (fst (worker_outcome c))) with
        | DispatchResult.ok =>
            if frying then emit ConsoleFry ;;; update_machine console_fry
            else ret tt
        | _ => ret tt
        end) ;;;
       ret (double_of_Z (fst (fst (worker_outcome c)))
            / double_of_Z (cyclesPerSecond t))%float) w1
    /\ myConsole w1 = Some (with_machine (snd (worker_outcome c)) c)
    /\ eh_frying w1 = eh_frying w
    /\ events w1 =
         events w
         ++ (TiaNewFramePending
             :: (if pending
                 then [TiaFramesSinceLastRender;
                       FpsMeterRender (tia_framesSinceLastRender (machine c));
                       TiaRenderToFrameBuffer]
                 else []))
         ++ WorkerStart (cyclesPerSecond t) (maxCyclesPerTimeslice t)
                        (minCyclesPerTimeslice t)
            :: (if pending then [FrameBufferUpdateInEmulationMode] else [])
         ++ [WorkerStop].
Proof.
  intros Hc pending t. unfold dispatchEmulation, worker_outcome, machine_at_start.
  fold pending. fold t.
  unfold bind at 1. unfold gets at 1. rewrite Hc. fold t.
  destruct pending eqn:Hp; unfold pending in Hp; rewrite Hp;
    eexists; (split; [|split; [|split]]).
  1, 5: unfold update_machine, console, emit, modify, gets, bind at 1 2 3 4 5 6 7 8 9;
    simpl; rewrite ?Hc; simpl; rewrite ?Hc; simpl; reflexivity.
  all: simpl; rewrite ?Hc; try reflexivity.
  all: rewrite <- ?app_assoc; reflexivity.
Qed.

Lemma dispatchEmulation_events w c :
  myConsole w = Some c ->
  let pending := tia_newFramePending (machine c) in
  let t := emulationTiming c in
  events (snd (dispatchEmulation w)) =
    events w
    ++ (TiaNewFramePending
        :: (if pending
            then [TiaFramesSinceLastRender;
                  FpsMeterRender (tia_framesSinceLastRender (machine c));
                  TiaRenderToFrameBuffer]
            else []))
    ++ WorkerStart (cyclesPerSecond t) (maxCyclesPerTimeslice t)
                   (minCyclesPerTimeslice t)
       :: (if pending then [FrameBufferUpdateInEmulationMode] else [])
    ++ WorkerStop :: DispatchResultGetStatus
       :: after_status (snd (fst (worker_outcome c))) (eh_frying w).
Proof.
  intros Hc pending t.
  destruct (dispatchEmulation_stopped w c Hc) as (w1 & Hd & Hc1 & Hf & He).
  fold pending in He. fold t in He. rewrite Hd. clear Hd.
  unfold after_status, handle_dispatch_result, update_machine, console,
    emit, modify, gets, throw, ret, bind.
  rewrite <- Hf.
  destruct (DispatchResult.getStatus (snd (fst (worker_outcome c))));
    destruct DEBUGGER_SUPPORT; simpl; destruct (eh_frying w1);
    simpl; rewrite ?Hc1; simpl; rewrite He;
    repeat (rewrite <- ?app_assoc; simpl); reflexivity.
Qed.

(** C8: with a console attached, the calls of [dispatchEmulation] come in
    this order: the pending frame, if there is one, is copied by
    [TIA::renderToFrameBuffer]; then [EmulationWorker::start]; then at most
    the frame buffer's own update; then [EmulationWorker::stop]; and only
    then is the dispatch result read.  No copy of the frame follows the
    start, no read of the result precedes the stop, and between start and
    stop no call touches the emulated hardware; the worker is started on
    the hardware as the copy left it. *)
Theorem dispatchEmulation_order (w : World) (c : Console) :
  myConsole w = Some c ->
  let pending := tia_newFramePending (machine c) in
  let t := emulationTiming c in
  let before :=
    TiaNewFramePending
    :: (if pending
        then [TiaFramesSinceLastRender;
              FpsMeterRender (tia_framesSinceLastRender (machine c));
              TiaRenderToFrameBuffer]
        else []) in
  let during := if pending then [FrameBufferUpdateInEmulationMode] else [] in
  let after :=
    DispatchResultGetStatus
    :: after_status (snd (fst (worker_outcome c))) (eh_frying w) in
  events (snd (dispatchEmulation w)) =
    events w ++ before
    ++ WorkerStart (cyclesPerSecond t) (maxCyclesPerTimeslice t)
                   (minCyclesPerTimeslice t)
       :: during ++ WorkerStop :: after
  /\ (pending = true -> In TiaRenderToFrameBuffer before)
  /\ ~ In TiaRenderToFrameBuffer (during ++ WorkerStop :: after)
  /\ ~ In DispatchResultGetStatus before
  /\ ~ In DispatchResultGetStatus during
  /\ forallb (fun e => negb (touches_hardware e)) during = true
  /\ window_clean false
       (before ++ WorkerStart (cyclesPerSecond t) (maxCyclesPerTimeslice t)
                              (minCyclesPerTimeslice t)
                  :: during ++ WorkerStop :: after) = true.
Proof.
  intros Hc pending t before during after.
  split; [exact (dispatchEmulation_events w c Hc)|].
  unfold before, during, after, after_status.
  destruct pending;
    destruct (DispatchResult.getStatus (snd (fst (worker_outcome c))));
    destruct DEBUGGER_SUPPORT; destruct (eh_frying w); simpl;
    repeat split; try reflexivity; try discriminate;
    intuition discriminate.
Qed.

Lemma dispatchEmulation_value w c :
  myConsole w = Some c ->
  DispatchResult.getStatus (snd (fst (worker_outcome c)))
    <> DispatchResult.invalid ->
  fst (dispatchEmulation w)
  = Done (double_of_Z (fst (fst (worker_outcome c)))
          / double_of_Z (cyclesPerSecond (emulationTiming c)))%float.
Proof.
  intros Hc Hv.
  destruct (dispatchEmulation_stopped w c Hc) as (w1 & Hd & Hc1 & _ & _).
  rewrite Hd. clear Hd.
  unfold handle_dispatch_result, update_machine, console,
    emit, modify, gets, throw, ret, bind.
  destruct (DispatchResult.getStatus (snd (fst (worker_outcome c))));
    [contradiction Hv; reflexivity | | |];
    destruct DEBUGGER_SUPPORT; simpl; destruct (eh_frying w1);
    simpl; rewrite ?Hc1; reflexivity.
Qed.

(** With no console attached [dispatchEmulation] does nothing and reports
    no time spent; a dispatch result of no known status ends it with an
    exception. *)
Lemma dispatchEmulation_no_console w :
  myConsole w = None -> dispatchEmulation w = (Done 0%float, w).
Proof.
  intros H. unfold dispatchEmulation, bind, gets. rewrite H. reflexivity.
Qed.

Lemma dispatchEmulation_invalid w c :
  myConsole w = Some c ->
  DispatchResult.getStatus (snd (fst (worker_outcome c)))
    = DispatchResult.invalid ->
  fst (dispatchEmulation w) = Thrown "invalid emulation dispatch result".
Proof.
  intros Hc Hv.
  destruct (dispatchEmulation_stopped w c Hc) as (w1 & Hd & _).
  rewrite Hd. unfold handle_dispatch_result, emit, modify, throw, bind.
  rewrite Hv. reflexivity.
Qed.

(** C7: the timeslice of an iteration follows the event handler's state.
    In [EMULATION], with a console attached and a dispatch result of a
    known status, it is the cycles the worker executed over the cycles per
    second.  In [PLAYBACK] it is the scanlines of the last frame times 76
    cycles a scanline (the product within [uInt32]) over the cycles per
    second.  In every other state it is [1./60.].  All three are computed
    in [double].  In [EMULATION] with no console attached no cycle is
    executed and the timeslice is [0]; a dispatch result of no known status
    ends the iteration with an exception. *)
Theorem timeslice_by_mode (w : World) :
  (forall c,
      eh_state w = EMULATION -> myConsole w = Some c ->
      DispatchResult.getStatus (snd (fst (worker_outcome c)))
        <> DispatchResult.invalid ->
      fst (timesliceSeconds w)
      = Done (double_of_Z (fst (fst (worker_outcome c)))
              / double_of_Z (cyclesPerSecond (emulationTiming c)))%float)
  /\ (forall c,
        eh_state w = PLAYBACK -> myConsole w = Some c ->
        uInt32_range (tia_scanlinesLastFrame (machine c) * 76) ->
        timesliceSeconds w
        = (Done (double_of_Z (tia_scanlinesLastFrame (machine c) * 76)
                 / double_of_Z (cyclesPerSecond (emulationTiming c)))%float,
           log FrameBufferUpdate (log TiaScanlinesLastFrame w)))
  /\ (eh_state w <> EMULATION -> eh_state w <> PLAYBACK ->
      timesliceSeconds w = (Done (1 / 60)%float, log FrameBufferUpdate w))
  /\ (eh_state w = EMULATION -> myConsole w = None ->
      timesliceSeconds w = (Done 0%float, w))
  /\ (forall c,
        eh_state w = EMULATION -> myConsole w = Some c ->
        DispatchResult.getStatus (snd (fst (worker_outcome c)))
          = DispatchResult.invalid ->
        fst (timesliceSeconds w) = Thrown "invalid emulation dispatch result").
Proof.
  unfold timesliceSeconds. split; [|split; [|split; [|split]]].
  - intros c Hs Hc Hv. unfold bind at 1. unfold gets at 1. rewrite Hs.
    simpl. apply (dispatchEmulation_value w c Hc Hv).
  - intros c Hs Hc Hr. unfold bind, gets, console, emit, modify, ret.
    rewrite Hs. simpl. rewrite Hc. rewrite (to_uInt32_id _ Hr). reflexivity.
  - intros He Hp. unfold bind, gets, emit, modify, ret.
    destruct (eh_state w); try reflexivity; contradiction.
  - intros Hs Hc. unfold bind at 1. unfold gets at 1. rewrite Hs. simpl.
    apply (dispatchEmulation_no_console w Hc).
  - intros c Hs Hc Hv. unfold bind at 1. unfold gets at 1. rewrite Hs.
    simpl. apply (dispatchEmulation_invalid w c Hc Hv).
Qed.

(** The three ways an iteration ends, by the lag of the virtual time
    against one frame. *)
Lemma reconcile_cases now vt w :
  reconcile now vt w =
    if (maxLag w <? seconds_of_clock_duration (now - vt))%float
    then (Done now, w)
    else if now <? vt then (Done vt, log (SleepUntil vt) w)
         else (Done vt, w).
Proof.
  unfold reconcile, bind, gets, emit, modify, ret.
  destruct (maxLag w <? seconds_of_clock_duration (now - vt))%float;
    [reflexivity|].
  destruct (now <? vt); reflexivity.
Qed.

(** C2: in an iteration that is not left by the quit flag and whose
    timeslice is [seconds], the virtual time is first advanced by the
    timeslice; if the clock reading [now] is then ahead of it by more than
    one frame of the attached console ([cyclesPerFrame / cyclesPerSecond]
    in [double], [0] with no console), the iteration ends with the virtual
    time equal to [now], and without sleeping. *)
Theorem resync_after_advance (poll : World -> World) (now_reset now vt : Z)
    (w w1 : World) (seconds : float) :
  let entered :=
    negb (is_EMULATION (eh_state w)) && is_EMULATION (eh_state (poll w)) in
  let started := if entered then log FpsMeterReset (poll w) else poll w in
  let advanced :=
    (if entered then now_reset else vt) + clock_duration_of_seconds seconds in
  let frame :=
    match myConsole w1 with
    | Some c => (double_of_Z (cyclesPerFrame (emulationTiming c))
                 / double_of_Z (cyclesPerSecond (emulationTiming c)))%float
    | None => 0%float
    end in
  myQuitLoop (poll w) = false ->
  timesliceSeconds started = (Done seconds, w1) ->
  (frame <? seconds_of_clock_duration (now - advanced))%float = true ->
  mainLoop_iteration poll now_reset now vt w = (Done (Some now), w1).
Proof.
  intros entered started advanced frame Hq Ht Hlag.
  assert (Hframe : maxLag w1 = frame).
  { unfold maxLag, frame. destruct (myConsole w1); reflexivity. }
  unfold mainLoop_iteration.
  unfold bind at 1. unfold gets at 1.
  unfold bind at 1. unfold modify at 1.
  unfold bind at 1. unfold gets at 1. rewrite Hq.
  unfold bind at 1. unfold gets at 1. fold entered.
  unfold bind at 1.
  assert (Hstart : (if entered then emit FpsMeterReset else ret tt) (poll w)
                   = (Done tt, started)).
  { unfold started. destruct entered; reflexivity. }
  rewrite Hstart. unfold bind at 1. rewrite Ht. fold advanced.
  unfold bind at 1. rewrite reconcile_cases, Hframe, Hlag. reflexivity.
Qed.

End SchedulerFacts.

(** *** The scheduler facts on an NTSC console *)

Module SchedulerRuns.
Import Fixture.

(** A frame is pending: it is copied, the worker runs one frame of 19912
    cycles, the frame buffer is updated meanwhile, and the result is read
    after the stop. *)
Lemma dispatchEmulation_order_witness :
  events (snd (dispatchEmulation (world EMULATION 0 false (every_file []))))
  = [TiaNewFramePending; TiaFramesSinceLastRender; FpsMeterRender 1;
     TiaRenderToFrameBuffer; WorkerStart 1194720 19912 4978;
     FrameBufferUpdateInEmulationMode; WorkerStop;
     DispatchResultGetStatus; DispatchResultGetStatus].
Proof.
  exact (proj1 (dispatchEmulation_order
                  (world EMULATION 0 false (every_file [])) pitfall eq_refl)).
Defined.

Lemma timeslice_by_mode_witness :
  fst (timesliceSeconds (world EMULATION 0 false (every_file [])))
  = Done (double_of_Z 19912 / double_of_Z 1194720)%float
  /\ fst (timesliceSeconds (world PLAYBACK 0 false (every_file [])))
     = Done (double_of_Z (262 * 76) / double_of_Z 1194720)%float
  /\ fst (timesliceSeconds (world TIMEMACHINE 0 false (every_file [])))
     = Done (1 / 60)%float.
Proof.
  split; [|split].
  - exact (proj1 (timeslice_by_mode (world EMULATION 0 false (every_file [])))
             pitfall eq_refl eq_refl ltac:(discriminate)).
  - rewrite (proj1 (proj2 (timeslice_by_mode
                             (world PLAYBACK 0 false (every_file []))))
               pitfall eq_refl eq_refl ltac:(in_range)).
    reflexivity.
  - rewrite (proj1 (proj2 (proj2 (timeslice_by_mode
                             (world TIMEMACHINE 0 false (every_file [])))))
               ltac:(discriminate) ltac:(discriminate)).
    reflexivity.
Defined.

(** The menu is shown for a second of wall time in one go (a stall): the
    virtual time, 1000 ticks before, is not advanced by the sixtieth of a
    second and left behind, it is set to the clock reading. *)
Lemma resync_after_advance_witness :
  mainLoop_iteration (fun w => w) 0 1000000000 1000
    (world OPTIONSMENU 0 false (every_file []))
  = (Done (Some 1000000000),
     log FrameBufferUpdate (world OPTIONSMENU 0 false (every_file []))).
Proof.
  exact (resync_after_advance (fun w => w) 0 1000000000 1000
           (world OPTIONSMENU 0 false (every_file []))
           (log FrameBufferUpdate (world OPTIONSMENU 0 false (every_file [])))
           (1 / 60)%float eq_refl eq_refl eq_refl).
Defined.

(** Without a stall the iteration keeps the advanced virtual time and
    sleeps until then. *)
Example mainLoop_iteration_throttles :
  mainLoop_iteration (fun w => w) 0 5000000 1000
    (world OPTIONSMENU 0 false (every_file []))
  = (Done (Some 16667666),
     log (SleepUntil 16667666)
       (log FrameBufferUpdate (world OPTIONSMENU 0 false (every_file [])))).
Proof. vm_compute. reflexivity. Qed.

End SchedulerRuns.


(** * Further properties *)

(** ** BreakpointMap: absent keys, overwriting, other keys, listing *)

Module BreakpointMapMore.
Import BreakpointMap BreakpointMapInv BreakpointMapFacts.

Lemma check_true_lookup bp m :
  check bp m = true <-> exists entry, myMap m !! bp_key bp = Some entry.
Proof.
  unfold check. destruct (myMap m !! bp_key bp) as [e|].
  - split; [eauto | reflexivity].
  - split; [discriminate | intros [e He]; discriminate He].
Qed.

Lemma check_false_lookup bp m :
  check bp m = false <-> myMap m !! bp_key bp = None.
Proof.
  unfold check. destruct (myMap m !! bp_key bp) as [e|].
  - split; discriminate.
  - split; reflexivity.
Qed.

Lemma bp_eqb_false_key a b : bp_eqb a b = false <-> bp_key a <> bp_key b.
Proof.
  rewrite <- bp_eqb_key. destruct (bp_eqb a b); split; congruence.
Qed.

(** X1: a breakpoint that is not in the map reads as flags 0, and so does
    one added with flags 0: [get] cannot tell them apart, only [check]
    can. *)
Theorem get_does_not_tell_absent (bp : Breakpoint) (m : t) :
  check bp m = false ->
  get bp m = 0
  /\ get bp (add bp 0 m) = 0
  /\ check bp (add bp 0 m) = true.
Proof.
  intros Hc. apply check_false_lookup in Hc.
  split; [unfold get; rewrite Hc; reflexivity|].
  split; [rewrite get_add; reflexivity | apply check_add].
Qed.

Lemma get_does_not_tell_absent_witness :
  get (mkBreakpoint 0x0f00 1) create = 0
  /\ get (mkBreakpoint 0x0f00 1) (add (mkBreakpoint 0x0f00 1) 0 create) = 0
  /\ check (mkBreakpoint 0x0f00 1) (add (mkBreakpoint 0x0f00 1) 0 create)
     = true.
Proof.
  exact (get_does_not_tell_absent (mkBreakpoint 0x0f00 1) create eq_refl).
Defined.

(** X2: operations on one breakpoint leave every breakpoint of another
    class as it was: [add] and [erase] change neither its presence nor its
    flags. *)
Theorem other_breakpoints_untouched (a b : Breakpoint) (f : Z) (m : t) :
  bp_eqb a b = false ->
  check b (add a f m) = check b m
  /\ get b (add a f m) = get b m
  /\ check b (erase a m) = check b m
  /\ get b (erase a m) = get b m.
Proof.
  intros Hne. apply bp_eqb_false_key in Hne.
  unfold check, get, add, erase, map_assign; simpl.
  destruct (myMap m !! bp_key a) as [[s o]|];
    rewrite ?lookup_insert_ne, ?lookup_delete_ne by exact Hne;
    repeat split; reflexivity.
Qed.

Lemma other_breakpoints_untouched_witness :
  check (mkBreakpoint 0x1000 1) (add (mkBreakpoint 0x1000 0) 1
                                    (add (mkBreakpoint 0x1000 1) 7 create))
  = check (mkBreakpoint 0x1000 1) (add (mkBreakpoint 0x1000 1) 7 create)
  /\ get (mkBreakpoint 0x1000 1) (add (mkBreakpoint 0x1000 0) 1
                                     (add (mkBreakpoint 0x1000 1) 7 create))
     = get (mkBreakpoint 0x1000 1) (add (mkBreakpoint 0x1000 1) 7 create)
  /\ check (mkBreakpoint 0x1000 1) (erase (mkBreakpoint 0x1000 0)
                                      (add (mkBreakpoint 0x1000 1) 7 create))
     = check (mkBreakpoint 0x1000 1) (add (mkBreakpoint 0x1000 1) 7 create)
  /\ get (mkBreakpoint 0x1000 1) (erase (mkBreakpoint 0x1000 0)
                                    (add (mkBreakpoint 0x1000 1) 7 create))
     = get (mkBreakpoint 0x1000 1) (add (mkBreakpoint 0x1000 1) 7 create).
Proof.
  exact (other_breakpoints_untouched (mkBreakpoint 0x1000 0)
           (mkBreakpoint 0x1000 1) 1
           (add (mkBreakpoint 0x1000 1) 7 create) eq_refl).
Defined.

(** X3: erasing a breakpoint that is not in the map changes nothing at
    all, so erasing twice is erasing once. *)
Theorem erase_absent_is_noop (bp : Breakpoint) (m : t) :
  check bp m = false ->
  erase bp m = m /\ erase bp (erase bp m) = erase bp m.
Proof.
  intros Hc. apply check_false_lookup in Hc.
  assert (He : erase bp m = m).
  { unfold erase. rewrite (delete_id _ _ Hc). destruct m; reflexivity. }
  rewrite !He. split; reflexivity.
Qed.

Lemma erase_absent_is_noop_witness :
  erase (mkBreakpoint 0x1234 0) (add (mkBreakpoint 0x1235 0) 0 create)
  = add (mkBreakpoint 0x1235 0) 0 create
  /\ erase (mkBreakpoint 0x1234 0)
       (erase (mkBreakpoint 0x1234 0) (add (mkBreakpoint 0x1235 0) 0 create))
     = erase (mkBreakpoint 0x1234 0) (add (mkBreakpoint 0x1235 0) 0 create).
Proof.
  exact (erase_absent_is_noop (mkBreakpoint 0x1234 0)
           (add (mkBreakpoint 0x1235 0) 0 create) eq_refl).
Defined.

(** X4: [size] counts classes.  Adding a breakpoint that is absent makes
    the map one larger, adding one that is present (under this or an equal
    key) leaves the size, erasing one that is present makes it one
    smaller. *)
Theorem size_counts_classes (bp : Breakpoint) (f : Z) (m : t) :
  (check bp m = false -> size (add bp f m) = S (size m))
  /\ (check bp m = true ->
      size (add bp f m) = size m /\ S (size (erase bp m)) = size m).
Proof.
  unfold size, add, erase, map_assign; simpl. split.
  - intros Hc. apply check_false_lookup in Hc. rewrite Hc.
    apply map_size_insert_None, Hc.
  - intros Hc. apply check_true_lookup in Hc. destruct Hc as [[s o] He].
    rewrite He. split.
    + apply map_size_insert_Some. eauto.
    + rewrite map_size_delete_Some by eauto.
      assert (base.size (myMap m) <> 0%nat).
      { intros Hz. apply map_size_empty_iff in Hz. rewrite Hz in He.
        rewrite lookup_empty in He. discriminate He. }
      lia.
Qed.

Lemma size_counts_classes_witness :
  size (add (mkBreakpoint 0x1000 0) 0 create) = 1%nat
  /\ size (add (mkBreakpoint 0x3000 0) 1 (add (mkBreakpoint 0x1000 0) 0 create))
     = 1%nat
  /\ S (size (erase (mkBreakpoint 0x3000 0)
                (add (mkBreakpoint 0x1000 0) 0 create))) = 1%nat.
Proof.
  split.
  - exact (proj1 (size_counts_classes (mkBreakpoint 0x1000 0) 0 create) eq_refl).
  - exact (proj2 (size_counts_classes (mkBreakpoint 0x3000 0) 1
                    (add (mkBreakpoint 0x1000 0) 0 create)) eq_refl).
Defined.

Lemma keyed_run ops m : keyed m -> keyed (run ops m).
Proof.
  revert m. induction ops as [|o ops IH]; intros m Hk; [exact Hk|].
  unfold run in *. simpl. apply IH. clear IH.
  destruct o as [bp f|bp|]; unfold keyed, apply_op, add, erase, clear,
    map_assign in *; simpl.
  - destruct (myMap m !! bp_key bp) as [[s o]|] eqn:He.
    + apply map_Forall_insert_2; [|exact Hk]. exact (Hk _ _ He).
    + apply map_Forall_insert_2; [reflexivity | exact Hk].
  - apply map_Forall_delete, Hk.
  - apply map_Forall_empty.
Qed.

Lemma keyed_built ops : keyed (built ops).
Proof. apply keyed_run. unfold keyed, create; simpl. apply map_Forall_empty. Qed.

Lemma getBreakpoints_keys m :
  keyed m -> bp_key <$> getBreakpoints m = (map_to_list (myMap m)).*1.
Proof.
  intros Hk. unfold getBreakpoints. rewrite <- list_fmap_compose.
  apply list_fmap_ext. intros i [k [bp f]] Hin.
  apply list_elem_of_lookup_2, elem_of_map_to_list in Hin. simpl.
  exact (Hk _ _ Hin).
Qed.

Lemma elem_of_getBreakpoints m b :
  keyed m ->
  b ∈ getBreakpoints m <-> exists f, myMap m !! bp_key b = Some (b, f).
Proof.
  intros Hk. unfold getBreakpoints. rewrite list_elem_of_fmap. split.
  - intros [[k [bp f]] [-> Hin]]. apply elem_of_map_to_list in Hin.
    pose proof (Hk _ _ Hin) as Hkey. simpl in *. exists f. rewrite Hkey.
    exact Hin.
  - intros [f Hf]. exists (bp_key b, (b, f)). split; [reflexivity|].
    apply elem_of_map_to_list. exact Hf.
Qed.

(** X5: on a registry built by [add], [erase] and [clear],
    [getBreakpoints] lists one key object for each class present, no class
    twice: its length is [size()], and [check] holds of a breakpoint exactly
    when the list has a breakpoint equal to it under [operator==]. *)
Theorem getBreakpoints_lists_each_class_once (ops : list op) :
  length (getBreakpoints (built ops)) = size (built ops)
  /\ NoDup (bp_key <$> getBreakpoints (built ops))
  /\ forall b,
       check b (built ops) = true
       <-> exists b', b' ∈ getBreakpoints (built ops) /\ bp_eqb b b' = true.
Proof.
  pose proof (keyed_built ops) as Hk. split; [|split].
  - unfold getBreakpoints, size. rewrite length_fmap.
    apply length_map_to_list.
  - rewrite (getBreakpoints_keys _ Hk). apply NoDup_fst_map_to_list.
  - intros b. rewrite check_true_lookup. split.
    + intros [[b' f] He]. exists b'. pose proof (Hk _ _ He) as Hkey.
      simpl in Hkey. split.
      * apply (elem_of_getBreakpoints _ _ Hk). exists f. rewrite Hkey.
        exact He.
      * apply bp_eqb_key. symmetry. exact Hkey.
    + intros [b' [Hin He]]. apply (elem_of_getBreakpoints _ _ Hk) in Hin.
      destruct Hin as [f Hf]. apply bp_eqb_key in He. rewrite He. eauto.
Qed.

(** X6: adding a breakpoint that is already present, under the same or an
    equal key, assigns the new flags but keeps the key object stored first:
    [getBreakpoints] lists the same breakpoints as before. *)
Theorem add_again_keeps_first_key (b : Breakpoint) (f : Z) (m : t) :
  check b m = true ->
  getBreakpoints (add b f m) ≡ₚ getBreakpoints m
  /\ get b (add b f m) = to_uInt32 f.
Proof.
  intros Hc. split; [|apply get_add].
  apply check_true_lookup in Hc. destruct Hc as [[s o] He].
  unfold getBreakpoints, add, map_assign; simpl. rewrite He.
  rewrite <- (insert_delete_id (myMap m) (bp_key b) (s, o) He) at 2.
  rewrite <- insert_delete_eq.
  rewrite !map_to_list_insert by apply lookup_delete_eq.
  reflexivity.
Qed.

Lemma add_again_keeps_first_key_witness :
  getBreakpoints (add (mkBreakpoint 0x3000 0) ONE_SHOT
                    (add (mkBreakpoint 0x1000 0) 0 create))
  ≡ₚ getBreakpoints (add (mkBreakpoint 0x1000 0) 0 create)
  /\ get (mkBreakpoint 0x3000 0)
       (add (mkBreakpoint 0x3000 0) ONE_SHOT
          (add (mkBreakpoint 0x1000 0) 0 create))
     = to_uInt32 ONE_SHOT.
Proof.
  exact (add_again_keeps_first_key (mkBreakpoint 0x3000 0) ONE_SHOT
           (add (mkBreakpoint 0x1000 0) 0 create) eq_refl).
Defined.

(** The key object listed after the two [add]s is the first one. *)
Example alias_lists_first_key :
  getBreakpoints (add (mkBreakpoint 0x3000 0) ONE_SHOT
                    (add (mkBreakpoint 0x1000 0) 0 create))
  = [mkBreakpoint 0x1000 0].
Proof. vm_compute. reflexivity. Qed.

End BreakpointMapMore.

(** ** StateManager: failures, frames and the slot counter *)

Section StateManagerMore.

Context {X : Externals}.

(** Every branch of a call is followed to its end. *)
Ltac follow_paths Hc :=
  repeat first
    [ rewrite Hc
    | progress simpl
    | match goal with
      | |- context [match ?x with _ => _ end] =>
          match type of x with
          | _ => is_var x; destruct x
          | _ => destruct x eqn:?
          end
      end ].

Lemma keeps_session_refl w : keeps_session w w.
Proof.
  unfold keeps_session. repeat split. exists []. rewrite app_nil_r. reflexivity.
Qed.

Lemma keeps_session_log e w w' :
  keeps_session w w' -> keeps_session w (log e w').
Proof.
  unfold keeps_session. simpl. intros (?&?&?&?&?&?&?&?&made&Hm).
  repeat split; try assumption.
  exists (made ++ [e]). rewrite Hm, app_assoc. reflexivity.
Qed.

Lemma only_hardware_refl w : only_hardware_and_calls w w.
Proof.
  split; [apply keeps_session_refl|]. destruct (myConsole w); simpl; auto.
Qed.

Lemma only_hardware_log e w w' :
  only_hardware_and_calls w w' -> only_hardware_and_calls w (log e w').
Proof. intros [Hk Hs]. split; [apply keeps_session_log, Hk | exact Hs]. Qed.

Lemma only_hardware_set_machine m w w' :
  only_hardware_and_calls w w' ->
  only_hardware_and_calls w (set_machine m w').
Proof.
  intros [Hk Hs]. split; [exact Hk|]. simpl.
  destruct (myConsole w), (myConsole w'); simpl in *; auto.
Qed.

(** A world reached from [w] by recording calls and replacing the
    hardware. *)
Ltac reached_by_calls :=
  split; [reflexivity|];
  repeat first [ assumption | apply only_hardware_log
               | apply only_hardware_set_machine ].

Lemma loadState_without_console slot w :
  hasConsole w = false -> loadState slot w = (Done tt, w).
Proof. intros H. unfold loadState, bind, gets. rewrite H. reflexivity. Qed.

Lemma saveState_without_console slot w :
  hasConsole w = false -> saveState slot w = (Done tt, w).
Proof. intros H. unfold saveState, bind, gets. rewrite H. reflexivity. Qed.

Lemma hasConsole_true w :
  hasConsole w = true -> exists c, myConsole w = Some c.
Proof.
  unfold hasConsole. destruct (myConsole w) as [c|]; [eauto|discriminate].
Qed.

Lemma loadState_reaches w0 slot w :
  only_hardware_and_calls w0 w ->
  fst (loadState slot w) = Done tt
  /\ only_hardware_and_calls w0 (snd (loadState slot w)).
Proof.
  intros H0. destruct (hasConsole w) eqn:Hh.
  2: { rewrite (loadState_without_console slot w Hh). simpl.
       reached_by_calls. }
  destruct (hasConsole_true w Hh) as [c Hc].
  unfold loadState, loadState_try, Console_load, getString, openSerializer,
    showMessage, console, emit, modify, gets, bind, try_catch, lift_exc, ret,
    throw.
  rewrite Hh, Hc. simpl.
  destruct (disk w _ true) as [in0|]; simpl; [|reached_by_calls].
  destruct (ser_getString in0) as [[hdr in1]|]; simpl; [|reached_by_calls].
  destruct (String.eqb hdr STATE_HEADER); simpl; [|reached_by_calls].
  destruct (ser_getString in1) as [[nm in2]|]; simpl; [|reached_by_calls].
  rewrite Hc. simpl.
  destruct (String.eqb nm (cartridge_name c)); simpl; [|reached_by_calls].
  rewrite Hc. simpl.
  destruct (console_load in2 (machine c)) as [[[|]|what] m']; simpl;
    reached_by_calls.
Qed.

(** X7: whatever the file holds and whatever [Serializer] and
    [Console::load] do, [loadState] returns normally: every exception is
    caught.  It never changes the current slot, the mode or the settings,
    and never replaces the console; only the console's hardware and the
    record of calls can differ afterwards. *)
Theorem loadState_always_returns (slot : Z) (w : World) :
  fst (loadState slot w) = Done tt
  /\ keeps_session w (snd (loadState slot w))
  /\ same_cartridge (myConsole w) (myConsole (snd (loadState slot w))).
Proof.
  destruct (loadState_reaches w slot w (only_hardware_refl w)) as [Hd [Hk Hs]].
  split; [exact Hd | split; [exact Hk | exact Hs]].
Qed.

(** X8: when the state file of the slot cannot be opened, [loadState] and
    [saveState] each show their own message naming the slot and do nothing
    else: nothing is read or written, and the console is not asked to load
    or save. *)
Theorem state_file_cannot_open (w : World) (c : Console) (slot : Z) :
  let n := effective_slot slot w in
  myConsole w = Some c -> eh_state w <> LAUNCHER ->
  (disk w (state_file (stateDir w) c n) true = None ->
   loadState slot w
   = (Done tt,
      log (ShowMessage ("Can't open/load from state file " +:+ show_int n))
        (log (OpenSerializer (state_file (stateDir w) c n) true) w)))
  /\ (disk w (state_file (stateDir w) c n) false = None ->
      saveState slot w
      = (Done tt,
         log (ShowMessage ("Can't open/save to state file " +:+ show_int n))
           (log (OpenSerializer (state_file (stateDir w) c n) false) w))).
Proof.
  intros n Hc Hs. pose proof (hasConsole_attached w c Hc Hs) as Hh.
  unfold n, effective_slot.
  split; intros Hd;
    unfold loadState, saveState, openSerializer, showMessage, console, emit,
      modify, gets, bind, ret;
    rewrite Hh, Hc; simpl; rewrite Hd; reflexivity.
Qed.

(** X9: a state file that ends before the header tag or before the
    cartridge name has been read makes [Serializer::getString] throw;
    [loadState] catches it, reports invalid data, never calls
    [Console::load] and leaves everything but the record of calls as it
    was. *)
Theorem loadState_truncated_file (w : World) (c : Console) (slot : Z)
    (in0 : Serializer) :
  let n := effective_slot slot w in
  let opened := log (OpenSerializer (state_file (stateDir w) c n) true) w in
  let invalid := "Invalid data in state " +:+ show_int n +:+ " file" in
  myConsole w = Some c -> eh_state w <> LAUNCHER ->
  disk w (state_file (stateDir w) c n) true = Some in0 ->
  (forall what,
      ser_getString in0 = Raised what ->
      loadState slot w
      = (Done tt, log (ShowMessage invalid) (log GetString opened)))
  /\ (forall in1 what,
        ser_getString in0 = Value (STATE_HEADER, in1) ->
        ser_getString in1 = Raised what ->
        loadState slot w
        = (Done tt, log (ShowMessage invalid)
                      (log GetString (log GetString opened)))).
Proof.
  intros n opened invalid Hc Hs Hd.
  pose proof (loadState_opened w c slot in0 Hc Hs Hd) as Ho.
  fold n in Ho. fold opened in Ho. rewrite Ho.
  unfold loadState_try, getString, showMessage, emit, modify, bind, try_catch,
    lift_exc, ret, throw.
  split.
  - intros what Hg. rewrite Hg. reflexivity.
  - intros in1 what Hg0 Hg1. rewrite Hg0. simpl. rewrite Hg1. reflexivity.
Qed.

(** X10: when header tag and cartridge name match, [loadState] hands the
    rest of the file to [Console::load], keeps the hardware that call
    leaves, and reports by its result: "loaded" for [true], invalid data
    for [false]. *)
Theorem loadState_completed (w : World) (c : Console) (slot : Z)
    (in0 in1 in2 : Serializer) (loaded : bool) (m' : Machine) :
  let n := effective_slot slot w in
  let opened := log (OpenSerializer (state_file (stateDir w) c n) true) w in
  myConsole w = Some c -> eh_state w <> LAUNCHER ->
  disk w (state_file (stateDir w) c n) true = Some in0 ->
  ser_getString in0 = Value (STATE_HEADER, in1) ->
  ser_getString in1 = Value (cartridge_name c, in2) ->
  console_load in2 (machine c) = (Value loaded, m') ->
  loadState slot w
  = (Done tt,
     log (ShowMessage
            (if loaded then "State " +:+ show_int n +:+ " loaded"
             else "Invalid data in state " +:+ show_int n +:+ " file"))
       (set_machine m'
          (log ConsoleLoad (log GetString (log GetString opened)))))
  /\ myConsole (snd (loadState slot w)) = Some (with_machine m' c).
Proof.
  intros n opened Hc Hs Hd Hg0 Hg1 Hl.
  pose proof (loadState_opened w c slot in0 Hc Hs Hd) as Ho.
  fold n in Ho. fold opened in Ho.
  assert (Hco : myConsole opened = Some c) by exact Hc.
  assert (Heq : loadState slot w
                = (Done tt,
                   log (ShowMessage
                          (if loaded then "State " +:+ show_int n +:+ " loaded"
                           else "Invalid data in state " +:+ show_int n
                                +:+ " file"))
                     (set_machine m'
                        (log ConsoleLoad
                           (log GetString (log GetString opened)))))).
  { rewrite Ho. unfold bind at 1, try_catch.
    rewrite (loadState_try_body n in0 in1 in2 c opened Hco Hg0 Hg1).
    rewrite Hl. simpl. destruct loaded; reflexivity. }
  split; [exact Heq|]. rewrite Heq. simpl. rewrite Hc. reflexivity.
Qed.

(** X11: when writing the header tag or the cartridge name throws,
    [saveState] gives up before [Console::save] is called and the current
    slot stays, also with [autoslot] set.  The message shown starts with
    the name of the state file, which is still in the buffer the message is
    built in. *)
Theorem saveState_write_throws (w : World) (c : Console) (slot : Z)
    (out0 : Serializer) :
  let n := effective_slot slot w in
  let path := state_file (stateDir w) c n in
  let opened := log (OpenSerializer path false) w in
  let failed := path +:+ "Error saving state " +:+ show_int n in
  myConsole w = Some c -> eh_state w <> LAUNCHER ->
  disk w path false = Some out0 ->
  (forall what,
      ser_putString STATE_HEADER out0 = Raised what ->
      saveState slot w
      = (Done tt, log (ShowMessage failed) (log (PutString STATE_HEADER) opened)))
  /\ (forall out1 what,
        ser_putString STATE_HEADER out0 = Value out1 ->
        ser_putString (cartridge_name c) out1 = Raised what ->
        saveState slot w
        = (Done tt,
           log (ShowMessage failed)
             (log (PutString (cartridge_name c))
                (log (PutString STATE_HEADER) opened)))).
Proof.
  intros n path opened failed Hc Hs Hd.
  pose proof (hasConsole_attached w c Hc Hs) as Hh.
  unfold failed, opened, path, n, effective_slot in *.
  unfold saveState, saveState_try, putString, openSerializer, showMessage,
    console, emit, modify, gets, bind, try_catch, lift_exc, ret, throw.
  rewrite Hh, Hc. simpl. rewrite Hd. simpl.
  split.
  - intros what Hp. rewrite Hp. reflexivity.
  - intros out1 what Hp0 Hp1. rewrite Hp0. simpl. rewrite Hc.
    rewrite Hp1. reflexivity.
Qed.

(** X12: when header and name are written and [Console::save] does not
    succeed, the current slot stays, also with [autoslot] set.  If the call
    returns [false] an error message naming the slot is shown.  If it
    throws, the exception leaves [saveState], which has no handler around
    that call, and no message is shown. *)
Theorem saveState_console_save_fails (w : World) (c : Console) (slot : Z)
    (out0 out1 out2 : Serializer) :
  let n := effective_slot slot w in
  let written :=
    log ConsoleSave
      (log (PutString (cartridge_name c))
         (log (PutString STATE_HEADER)
            (log (OpenSerializer (state_file (stateDir w) c n) false) w))) in
  myConsole w = Some c -> eh_state w <> LAUNCHER ->
  disk w (state_file (stateDir w) c n) false = Some out0 ->
  ser_putString STATE_HEADER out0 = Value out1 ->
  ser_putString (cartridge_name c) out1 = Value out2 ->
  (console_save out2 (machine c) = Value false ->
   saveState slot w
   = (Done tt, log (ShowMessage ("Error saving state " +:+ show_int n)) written))
  /\ (forall what,
        console_save out2 (machine c) = Raised what ->
        saveState slot w = (Thrown what, written)).
Proof.
  intros n written Hc Hs Hd Hp0 Hp1.
  pose proof (hasConsole_attached w c Hc Hs) as Hh.
  unfold written, n, effective_slot in *.
  unfold saveState, saveState_try, Console_save, putString, openSerializer,
    showMessage, console, emit, modify, gets, bind, try_catch, lift_exc, ret,
    throw.
  rewrite Hh, Hc. simpl. rewrite Hd. simpl. rewrite Hp0. simpl. rewrite Hc.
  rewrite Hp1. simpl. rewrite Hc.
  split.
  - intros Hsave. rewrite Hsave. reflexivity.
  - intros what Hsave. rewrite Hsave. reflexivity.
Qed.

(** What [saveState] may change: the record of calls and the current
    slot.  It overflows only at the [slot + 1] of the [autoslot] branch. *)
Lemma saveState_reaches slot w :
  (fst (saveState slot w) = Done tt
   \/ (exists what, fst (saveState slot w) = Thrown what)
   \/ (fst (saveState slot w) = Undefined
       /\ hasConsole w = true /\ getBool "autoslot" w = true
       /\ ~ int_range (effective_slot slot w + 1)))
  /\ myConsole (snd (saveState slot w)) = myConsole w
  /\ myActiveMode (snd (saveState slot w)) = myActiveMode w
  /\ settings (snd (saveState slot w)) = settings w
  /\ (myCurrentSlot (snd (saveState slot w)) = myCurrentSlot w
      \/ myCurrentSlot (snd (saveState slot w))
         = Z.rem (effective_slot slot w + 1) 10).
Proof.
  destruct (hasConsole w) eqn:Hh.
  2: { rewrite (saveState_without_console slot w Hh). simpl. tauto. }
  destruct (hasConsole_true w Hh) as [c Hc].
  unfold effective_slot.
  unfold saveState, saveState_try, Console_save, putString, openSerializer,
    showMessage, console, emit, modify, gets, bind, try_catch, lift_exc, ret,
    throw.
  rewrite Hh, Hc. simpl.
  destruct (disk w _ false) as [out0|]; simpl; [|tauto].
  destruct (ser_putString STATE_HEADER out0) as [out1|]; simpl; [|tauto].
  rewrite Hc.
  destruct (ser_putString (cartridge_name c) out1) as [out2|]; simpl; [|tauto].
  rewrite Hc.
  destruct (console_save out2 (machine c)) as [[|]|what]; simpl;
    [|tauto|eauto 10].
  change (getBool "autoslot" (log _ (log _ (log _ (log _ w)))))
    with (getBool "autoslot" w).
  destruct (getBool "autoslot" w); simpl; [|tauto].
  unfold int_value, undefined.
  destruct (int_rangeb _) eqn:Hint; simpl; [tauto|].
  split; [|tauto]. right. right. split; [reflexivity|].
  split; [reflexivity|]. split; [reflexivity|].
  intros Hr. apply int_rangeb_spec in Hr. congruence.
Qed.

(** X13: [saveState] never changes the console or its hardware, the mode
    or the settings, whatever [Serializer] and [Console::save] do.  For a
    slot [n] whose successor [n + 1] is a value of [int] it returns
    normally or leaves by an exception, and the current slot is afterwards
    what it was or the successor [(n + 1) % 10] of [n]. *)
Theorem saveState_touches_only_slot (slot : Z) (w : World) :
  int_range (effective_slot slot w + 1) ->
  (fst (saveState slot w) = Done tt
   \/ exists what, fst (saveState slot w) = Thrown what)
  /\ myConsole (snd (saveState slot w)) = myConsole w
  /\ myActiveMode (snd (saveState slot w)) = myActiveMode w
  /\ settings (snd (saveState slot w)) = settings w
  /\ (myCurrentSlot (snd (saveState slot w)) = myCurrentSlot w
      \/ myCurrentSlot (snd (saveState slot w))
         = Z.rem (effective_slot slot w + 1) 10).
Proof.
  intros Hint.
  destruct (saveState_reaches slot w) as ([Hd|[Ht|(_&_&_&Hover)]] & Hrest).
  - split; [left; exact Hd | exact Hrest].
  - split; [right; exact Ht | exact Hrest].
  - contradiction.
Qed.

Lemma rem_successor_in_range n : 0 <= n -> 0 <= Z.rem (n + 1) 10 < 10.
Proof.
  intros Hn. rewrite Z.rem_mod_nonneg by lia. apply Z.mod_pos_bound. lia.
Qed.

Lemma changeState_in_range w :
  0 <= myCurrentSlot w < 10 ->
  changeState w
  = (Done tt,
     log (ShowMessage ("Changed to slot "
                       +:+ show_int ((myCurrentSlot w + 1) mod 10)))
       (set_myCurrentSlot ((myCurrentSlot w + 1) mod 10) w)).
Proof.
  intros Hr. unfold changeState, showMessage, emit, modify, gets.
  unfold bind at 1. unfold bind at 1.
  rewrite int_value_in_range
    by (unfold int_range, INT_MIN, INT_MAX; lia).
  unfold bind. rewrite Z.rem_mod_nonneg by lia. reflexivity.
Qed.

(** A call with a slot in 0..9 current, and for [saveState] a slot argument
    below [INT_MAX], has defined behaviour and leaves a slot in 0..9
    current. *)
Lemma apply_slot_op_in_range o w :
  0 <= myCurrentSlot w < 10 -> slot_below_INT_MAX o ->
  fst (apply_slot_op o w) <> Undefined
  /\ 0 <= myCurrentSlot (snd (apply_slot_op o w)) < 10.
Proof.
  intros Hr Hb. destruct o as [slot|slot| | |]; simpl in *.
  - destruct (loadState_reaches w slot w (only_hardware_refl w))
      as [Hd [(_&_&_&_&_&Hslot&_) _]].
    rewrite Hd, Hslot. split; [discriminate | exact Hr].
  - assert (Hint : int_range (effective_slot slot w + 1)).
    { unfold effective_slot, int_range, INT_MIN, INT_MAX in *.
      destruct (Z.ltb_spec slot 0); lia. }
    destruct (saveState_reaches slot w)
      as ([Hd|[[what Ht]|(_&_&_&Hover)]] & _&_&_& Hslot);
      [| |contradiction].
    all: split; [congruence|].
    all: destruct Hslot as [Hslot|Hslot]; rewrite Hslot; [exact Hr|].
    all: apply rem_successor_in_range; unfold effective_slot;
      destruct (Z.ltb_spec slot 0); lia.
  - rewrite (changeState_in_range w Hr). simpl.
    split; [discriminate|]. apply Z.mod_pos_bound. lia.
  - unfold update, RewindManager_addState, emit, modify, bind, gets.
    destruct (myActiveMode w); (split; [discriminate | exact Hr]).
  - unfold toggleTimeMachine, setValue, showMessage, emit, modify, gets, bind.
    destruct (myActiveMode w); (split; [discriminate | exact Hr]).
Qed.

(** X14: the current slot stays one of the ten slots 0..9 under every
    sequence of [loadState], [saveState], [changeState], [update] and
    [toggleTimeMachine] whose [saveState] calls have a slot argument below
    [INT_MAX], whatever the files and the console do: every call of the
    sequence has defined behaviour, and the run ends with a slot in 0..9
    current. *)
Theorem current_slot_stays_in_range (ops : list slot_op) (w : World) :
  0 <= myCurrentSlot w < 10 ->
  Forall slot_below_INT_MAX ops ->
  exists w', run_slot_ops ops w = Some w' /\ 0 <= myCurrentSlot w' < 10.
Proof.
  intros Hr Hops. revert w Hr.
  induction Hops as [|o ops Ho _ IH]; intros w Hr; [exists w; auto|].
  destruct (apply_slot_op_in_range o w Hr Ho) as [Hdef Hr'].
  cbn [run_slot_ops].
  destruct (apply_slot_op o w) as [[[]|what|] w1]; simpl in *;
    [apply IH, Hr' | apply IH, Hr' | congruence].
Qed.

Lemma changeState_times_slot k w :
  0 <= myCurrentSlot w < 10 ->
  myCurrentSlot (changeState_times k w)
  = (myCurrentSlot w + Z.of_nat k) mod 10.
Proof.
  revert w. induction k as [|k IH]; intros w Hr.
  - simpl. rewrite Z.add_0_r, Z.mod_small by exact Hr. reflexivity.
  - cbn [changeState_times]. rewrite (changeState_in_range w Hr).
    cbn [snd]. rewrite IH.
    + simpl. rewrite Zplus_mod_idemp_l. f_equal. lia.
    + simpl. apply Z.mod_pos_bound. lia.
Qed.

(** X15: [changeState] steps the current slot round the ten slots: after
    [k] calls it is [(slot + k) mod 10], so ten calls bring it back, and
    each call shows the slot it has moved to. *)
Theorem changeState_cycles (w : World) (k : nat) :
  0 <= myCurrentSlot w < 10 ->
  myCurrentSlot (changeState_times k w) = (myCurrentSlot w + Z.of_nat k) mod 10
  /\ myCurrentSlot (changeState_times 10 w) = myCurrentSlot w
  /\ changeState w
     = (Done tt,
        log (ShowMessage ("Changed to slot "
                          +:+ show_int ((myCurrentSlot w + 1) mod 10)))
          (set_myCurrentSlot ((myCurrentSlot w + 1) mod 10) w)).
Proof.
  intros Hr. split; [apply changeState_times_slot, Hr|]. split.
  - rewrite changeState_times_slot by exact Hr.
    change (Z.of_nat 10) with (1 * 10). rewrite Z_mod_plus_full.
    apply Z.mod_small, Hr.
  - apply changeState_in_range, Hr.
Qed.

Lemma timemachine_key_neq (b : bool) :
  (if b then "dev.timemachine"%string else "plr.timemachine"%string)
  <> "dev.settings"%string.
Proof. destruct b; discriminate. Qed.

(** X16: [toggleTimeMachine] flips the mode and writes the new mode to the
    settings, under ["dev.timemachine"] when developer settings are active
    and under ["plr.timemachine"] otherwise; it never writes
    ["dev.settings"], so a second toggle uses the same key.  The second
    toggle brings the mode back and stores it: the stored value is then
    the original mode.  That is the value stored before the first toggle
    exactly when that value agreed with the mode; a stored value that
    differed from the mode is overwritten, not restored. *)
Theorem toggleTimeMachine_persists_mode (w : World) :
  let w1 := snd (toggleTimeMachine w) in
  let w2 := snd (toggleTimeMachine w1) in
  let on (m : Mode) := match m with TimeMachine => true | Off => false end in
  fst (toggleTimeMachine w) = Done tt
  /\ on (myActiveMode w1) = negb (on (myActiveMode w))
  /\ getBool (timemachine_key w) w1 = on (myActiveMode w1)
  /\ timemachine_key w1 = timemachine_key w
  /\ myActiveMode w2 = myActiveMode w
  /\ getBool (timemachine_key w) w2 = on (myActiveMode w)
  /\ (getBool (timemachine_key w) w2 = getBool (timemachine_key w) w
      <-> getBool (timemachine_key w) w = on (myActiveMode w))
  /\ messages (events w1)
     = messages (events w)
       ++ [if on (myActiveMode w1) then "Time Machine enabled"%string
           else "Time Machine disabled"%string].
Proof.
  unfold toggleTimeMachine, timemachine_key, getBool, setValue, showMessage,
    emit, modify, gets, bind, messages.
  destruct (myActiveMode w) eqn:Hm; simpl;
    rewrite ?lookup_insert_eq, ?omap_app; simpl;
    rewrite ?(lookup_insert_ne _ _ _ _ (timemachine_key_neq _)); simpl;
    rewrite ?lookup_insert_eq;
    repeat split; try reflexivity; simpl; congruence.
Qed.

End StateManagerMore.

(** ** StateManager: the stream overloads *)

Section StateManagerStreamFacts.

Context {X : Externals}.
Variable ser_good : Serializer -> bool.

Ltac refused_by H :=
  split; [eexists; reflexivity|];
  split; [repeat first [ apply only_hardware_refl | apply only_hardware_log
                       | apply only_hardware_set_machine ]|];
  split; [discriminate|]; unfold stream_loads;
  intros (c'&i1&i2&Hh'&Hc'&Hg'&H0'&H1'&Hl'); revert H;
  try congruence.

(** X17: [loadState(Serializer&)] never leaves by an exception: what
    [Serializer] or [Console::load] throw is caught and turned into
    [false].  It returns [true] exactly when a console is attached, the
    stream is usable, header tag and cartridge name match and
    [Console::load] returns [true]; and like the slot version it changes
    nothing but the console's hardware and the record of calls. *)
Theorem loadState_from_returns (in0 : Serializer) (w : World) :
  (exists b, fst (loadState_from ser_good in0 w) = Done b)
  /\ only_hardware_and_calls w (snd (loadState_from ser_good in0 w))
  /\ (fst (loadState_from ser_good in0 w) = Done true
      <-> stream_loads ser_good in0 w).
Proof.
  unfold loadState_from, Console_load, getString, console, emit, modify, gets,
    bind, try_catch, lift_exc, ret, throw.
  destruct (hasConsole w) eqn:Hh; [|refused_by Hh].
  destruct (hasConsole_true w Hh) as [c Hc].
  destruct (ser_good in0) eqn:Hg; [|refused_by Hg].
  simpl.
  destruct (ser_getString in0) as [[hdr in1]|what] eqn:H0; simpl;
    [|refused_by H0].
  destruct (String.eqb hdr STATE_HEADER) eqn:Hhdr; simpl.
  2: { refused_by Hhdr; intros Hhdr; rewrite H0 in H0';
       injection H0' as -> _; rewrite String.eqb_refl in Hhdr;
       discriminate Hhdr. }
  apply String.eqb_eq in Hhdr. subst hdr.
  destruct (ser_getString in1) as [[nm in2]|what] eqn:H1; simpl;
    [|refused_by H1].
  rewrite Hc. simpl.
  destruct (String.eqb nm (cartridge_name c)) eqn:Hnm; simpl.
  2: { refused_by Hnm; intros Hnm; rewrite H0 in H0'; injection H0' as <-;
       rewrite Hc in Hc'; injection Hc' as <-;
       rewrite H1 in H1'; injection H1' as -> _;
       rewrite String.eqb_refl in Hnm; discriminate Hnm. }
  apply String.eqb_eq in Hnm. subst nm. rewrite Hc. simpl.
  destruct (console_load in2 (machine c)) as [[[|]|what] m'] eqn:Hl; simpl.
  - split; [eexists; reflexivity|].
    split; [repeat first [ apply only_hardware_refl | apply only_hardware_log
                         | apply only_hardware_set_machine ]|].
    split; [intros _|reflexivity].
    exists c, in1, in2. rewrite Hl. repeat split; assumption.
  - refused_by Hl; intros Hl; rewrite H0 in H0'; injection H0' as <-;
      rewrite Hc in Hc'; injection Hc' as <-;
      rewrite H1 in H1'; injection H1' as <-;
      rewrite Hl in Hl'; discriminate Hl'.
  - refused_by Hl; intros Hl; rewrite H0 in H0'; injection H0' as <-;
      rewrite Hc in Hc'; injection Hc' as <-;
      rewrite H1 in H1'; injection H1' as <-;
      rewrite Hl in Hl'; discriminate Hl'.
Qed.

Lemma messages_log e w :
  messages (events (log e w))
  = messages (events w)
    ++ match e with ShowMessage msg => [msg] | _ => [] end.
Proof.
  unfold messages. simpl. rewrite omap_app. destruct e; reflexivity.
Qed.

Lemma messages_snoc l e :
  messages (l ++ [e])
  = messages l ++ match e with ShowMessage msg => [msg] | _ => [] end.
Proof. unfold messages. rewrite omap_app. destruct e; reflexivity. Qed.

Lemma not_the_loaded_message (l : list string) (msg loaded : string) :
  msg <> loaded -> l ++ [msg] = l ++ [loaded] -> False.
Proof.
  intros Hne Heq. apply app_inv_head in Heq. injection Heq as Heq.
  exact (Hne Heq).
Qed.

Ltac other_message n :=
  split; [discriminate|];
  rewrite ?messages_snoc, ?app_nil_r;
  intros Hmsg; exfalso; revert Hmsg;
  apply not_the_loaded_message;
  first [ apply (refusal_messages_distinct n) | discriminate ].

(** X18: on a usable stream the two versions of [loadState] agree.  Given
    the stream the slot version opens, [loadState(Serializer&)] returns
    [true] exactly when [loadState(int)] shows the "loaded" message, and
    both leave the same console and hardware. *)
Theorem loadState_overloads_agree (w : World) (c : Console) (slot : Z)
    (in0 : Serializer) :
  let n := effective_slot slot w in
  myConsole w = Some c -> eh_state w <> LAUNCHER ->
  disk w (state_file (stateDir w) c n) true = Some in0 ->
  ser_good in0 = true ->
  myConsole (snd (loadState slot w))
  = myConsole (snd (loadState_from ser_good in0 w))
  /\ (fst (loadState_from ser_good in0 w) = Done true
      <-> messages (events (snd (loadState slot w)))
          = messages (events w) ++ ["State " +:+ show_int n +:+ " loaded"]).
Proof.
  intros n Hc Hs Hd Hg.
  pose proof (hasConsole_attached w c Hc Hs) as Hh.
  rewrite (loadState_opened w c slot in0 Hc Hs Hd). fold n.
  unfold loadState_from, loadState_try, Console_load, getString, showMessage,
    console, emit, modify, gets, bind, try_catch, lift_exc, ret, throw.
  rewrite Hh, Hg. simpl.
  destruct (ser_getString in0) as [[hdr in1]|what]; simpl;
    [|split; [reflexivity | other_message n]].
  destruct (String.eqb hdr STATE_HEADER); simpl;
    [|split; [reflexivity | other_message n]].
  destruct (ser_getString in1) as [[nm in2]|what]; simpl;
    [|split; [reflexivity | other_message n]].
  rewrite Hc. simpl.
  destruct (String.eqb nm (cartridge_name c)); simpl;
    [|split; [reflexivity | other_message n]].
  rewrite Hc. simpl.
  destruct (console_load in2 (machine c)) as [[[|]|what] m']; simpl;
    (split; [reflexivity|]); [|other_message n|other_message n].
  rewrite ?messages_snoc, ?app_nil_r.
  split; reflexivity.
Qed.

Ltac not_saved_by H :=
  split; [eexists; reflexivity|];
  split; [first [reflexivity | assumption]|]; split; [reflexivity|];
  split; [rewrite ?messages_snoc, ?app_nil_r; reflexivity|];
  split; [discriminate|]; unfold stream_saves;
  intros (c'&o1&o2&Hh'&Hc'&Hg'&H0'&H1'&Hsv'); revert H;
  try congruence.

(** X19: [saveState(Serializer&)] never leaves by an exception, shows no
    message and never moves the current slot, whatever the [autoslot]
    setting; the console is left as it was.  It returns [true] exactly when
    a console is attached, the stream is usable, header tag and cartridge
    name are written and [Console::save] returns [true]. *)
Theorem saveState_to_returns (out0 : Serializer) (w : World) :
  (exists b, fst (saveState_to ser_good out0 w) = Done b)
  /\ myConsole (snd (saveState_to ser_good out0 w)) = myConsole w
  /\ myCurrentSlot (snd (saveState_to ser_good out0 w)) = myCurrentSlot w
  /\ messages (events (snd (saveState_to ser_good out0 w)))
     = messages (events w)
  /\ (fst (saveState_to ser_good out0 w) = Done true
      <-> stream_saves ser_good out0 w).
Proof.
  unfold saveState_to, Console_save, putString, console, emit, modify, gets,
    bind, try_catch, lift_exc, ret, throw.
  destruct (hasConsole w) eqn:Hh; [|not_saved_by Hh].
  destruct (hasConsole_true w Hh) as [c Hc].
  destruct (ser_good out0) eqn:Hg; [|not_saved_by Hg].
  simpl.
  destruct (ser_putString STATE_HEADER out0) as [out1|what] eqn:H0; simpl;
    [|not_saved_by H0].
  rewrite Hc. simpl.
  destruct (ser_putString (cartridge_name c) out1) as [out2|what] eqn:H1;
    simpl; [|not_saved_by H1].
  rewrite Hc. simpl.
  destruct (console_save out2 (machine c)) as [[|]|what] eqn:Hsv; simpl;
    [|not_saved_by Hsv|not_saved_by Hsv].
  split; [eexists; reflexivity|].
  split; [exact Hc|]. split; [reflexivity|].
  split; [rewrite ?messages_snoc, ?app_nil_r; reflexivity|].
  split; [intros _|reflexivity].
  exists c, out1, out2. repeat split; assumption.
Qed.

(** X20: an exception from [Console::save] is caught by
    [saveState(Serializer&)], which writes an error line and returns
    [false], but escapes from [saveState(int)], whose handler covers only
    the writing of header and name. *)
Theorem console_save_exception_paths (w : World) (c : Console) (slot : Z)
    (out0 out1 out2 : Serializer) (what : string) :
  myConsole w = Some c -> eh_state w <> LAUNCHER ->
  ser_good out0 = true ->
  disk w (state_file (stateDir w) c (effective_slot slot w)) false = Some out0 ->
  ser_putString STATE_HEADER out0 = Value out1 ->
  ser_putString (cartridge_name c) out1 = Value out2 ->
  console_save out2 (machine c) = Raised what ->
  saveState_to ser_good out0 w
  = (Done false,
     log (CerrLine "ERROR: StateManager::saveState(Serializer&)")
       (log ConsoleSave
          (log (PutString (cartridge_name c))
             (log (PutString STATE_HEADER) w))))
  /\ fst (saveState slot w) = Thrown what.
Proof.
  intros Hc Hs Hg Hd Hp0 Hp1 Hsv.
  pose proof (hasConsole_attached w c Hc Hs) as Hh.
  unfold effective_slot in Hd.
  unfold saveState_to, saveState, saveState_try, Console_save, putString,
    openSerializer, showMessage, console, emit, modify, gets, bind, try_catch,
    lift_exc, ret, throw.
  rewrite Hh, Hg, Hc. simpl. rewrite Hd, Hp0. simpl. rewrite Hc, Hp1. simpl.
  rewrite Hc, Hsv. simpl. split; reflexivity.
Qed.

End StateManagerStreamFacts.

(** ** StateManager: [reset] and the constructor *)

Section StateManagerResetFacts.

Context {X : Externals}.
Variable RewindManager : Type.
Variable rewind_clear : RewindManager -> RewindManager.

Lemma toggleTimeMachine_setting (w : World) :
  getBool (timemachine_key w) (snd (toggleTimeMachine w))
  = match myActiveMode (snd (toggleTimeMachine w)) with
    | TimeMachine => true
    | Off => false
    end
  /\ timemachine_key (snd (toggleTimeMachine w)) = timemachine_key w.
Proof.
  unfold toggleTimeMachine, timemachine_key, getBool, setValue, showMessage,
    emit, modify, gets, bind.
  destruct (myActiveMode w); simpl;
    rewrite ?lookup_insert_eq;
    rewrite ?(lookup_insert_ne _ _ _ _ (timemachine_key_neq _));
    split; reflexivity.
Qed.

Lemma reset_mode (w : World) (rm : RewindManager) :
  snd (reset RewindManager rewind_clear (w, rm))
  = (set_myActiveMode
       (if getBool (timemachine_key w) w then TimeMachine else Off) w,
     rewind_clear rm).
Proof. reflexivity. Qed.

(** X21: [reset] clears the rewind manager and takes the mode from the
    setting [toggleTimeMachine] writes, so a reset after a toggle keeps
    the toggled mode; it leaves the current slot alone.  A newly
    constructed state manager starts at slot 0 with a cleared rewind
    manager and the mode the settings hold. *)
Theorem reset_takes_mode_from_settings (w : World) (rm fresh : RewindManager) :
  snd (reset RewindManager rewind_clear (w, rm))
  = (set_myActiveMode
       (if getBool (timemachine_key w) w then TimeMachine else Off) w,
     rewind_clear rm)
  /\ myCurrentSlot (fst (snd (reset RewindManager rewind_clear (w, rm))))
     = myCurrentSlot w
  /\ myActiveMode
       (fst (snd (reset RewindManager rewind_clear
                    (snd (toggleTimeMachine w), rm))))
     = myActiveMode (snd (toggleTimeMachine w))
  /\ snd (StateManager_new RewindManager rewind_clear fresh (w, rm))
     = (set_myActiveMode
          (if getBool (timemachine_key w) w then TimeMachine else Off)
          (set_myCurrentSlot 0 w),
        rewind_clear fresh).
Proof.
  split; [reflexivity|]. split; [reflexivity|]. split; [|reflexivity].
  rewrite reset_mode. simpl.
  destruct (toggleTimeMachine_setting w) as [Hset Hkey].
  rewrite Hkey, Hset.
  destruct (myActiveMode (snd (toggleTimeMachine w))); reflexivity.
Qed.

End StateManagerResetFacts.

(** ** The scheduler loop: frying, quitting, keeping pace *)

Section SchedulerMore.

Context {X : Externals}.

(** X22: after a dispatch with a console attached and a result of known
    status, the console holds the hardware the worker left; it is fried
    only when the result is [ok] and frying is requested, never after a
    debugger trap or a fatal error. *)
Theorem dispatchEmulation_fries_only_when_ok (w : World) (c : Console) :
  myConsole w = Some c ->
  DispatchResult.getStatus (snd (fst (worker_outcome c)))
    <> DispatchResult.invalid ->
  myConsole (snd (dispatchEmulation w))
  = Some (with_machine (hardware_after_dispatch c (eh_frying w)) c)
  /\ (DispatchResult.getStatus (snd (fst (worker_outcome c)))
        <> DispatchResult.ok ->
      myConsole (snd (dispatchEmulation w))
      = Some (with_machine (snd (worker_outcome c)) c)).
Proof.
  intros Hc Hv.
  destruct (dispatchEmulation_stopped w c Hc) as (w1 & Hd & Hc1 & Hf & _).
  rewrite Hd. clear Hd. unfold hardware_after_dispatch.
  unfold handle_dispatch_result, update_machine, console,
    emit, modify, gets, throw, ret, bind.
  rewrite <- Hf.
  destruct (DispatchResult.getStatus (snd (fst (worker_outcome c))));
    [contradiction Hv; reflexivity | | |];
    destruct DEBUGGER_SUPPORT; simpl; destruct (eh_frying w1);
    simpl; rewrite ?Hc1; simpl; rewrite ?Hc1;
    (split; [reflexivity|]); intros Hne;
    first [reflexivity | contradiction Hne; reflexivity].
Qed.

(** When the quit flag is set after polling, the iteration ends the
    loop at once: nothing is dispatched, rendered or slept, the program
    state is as the poll left it. *)
Theorem mainLoop_iteration_quits (poll : World -> World) (now_reset now vt : Z)
    (w : World) :
  myQuitLoop (poll w) = true ->
  mainLoop_iteration poll now_reset now vt w = (Done None, poll w).
Proof.
  intros Hq. unfold mainLoop_iteration, bind, gets, modify, ret.
  rewrite Hq. reflexivity.
Qed.

(** X23: when the clock is not more than one frame ahead of the advanced
    virtual time, the iteration keeps the advanced virtual time, and it
    sleeps until then exactly when that time is still ahead of the
    clock. *)
Theorem mainLoop_iteration_keeps_pace (poll : World -> World)
    (now_reset now vt : Z) (w w1 : World) (seconds : float) :
  let entered :=
    negb (is_EMULATION (eh_state w)) && is_EMULATION (eh_state (poll w)) in
  let started := if entered then log FpsMeterReset (poll w) else poll w in
  let advanced :=
    (if entered then now_reset else vt) + clock_duration_of_seconds seconds in
  myQuitLoop (poll w) = false ->
  timesliceSeconds started = (Done seconds, w1) ->
  (maxLag w1 <? seconds_of_clock_duration (now - advanced))%float = false ->
  mainLoop_iteration poll now_reset now vt w
  = (Done (Some advanced),
     if now <? advanced then log (SleepUntil advanced) w1 else w1).
Proof.
  intros entered started advanced Hq Ht Hlag.
  unfold mainLoop_iteration.
  unfold bind at 1. unfold gets at 1.
  unfold bind at 1. unfold modify at 1.
  unfold bind at 1. unfold gets at 1. rewrite Hq.
  unfold bind at 1. unfold gets at 1. fold entered.
  unfold bind at 1.
  assert (Hstart : (if entered then emit FpsMeterReset else ret tt) (poll w)
                   = (Done tt, started)).
  { unfold started. destruct entered; reflexivity. }
  rewrite Hstart. unfold bind at 1. rewrite Ht. fold advanced.
  unfold bind at 1. rewrite reconcile_cases, Hlag.
  destruct (now <? advanced); reflexivity.
Qed.

(** X24: in the iteration in which the event handler enters [EMULATION],
    the virtual time carried into the iteration is dropped: the iteration
    goes on from the clock reading taken at that point, so its outcome does
    not depend on the old virtual time. *)
Theorem entering_emulation_drops_virtual_time (poll : World -> World)
    (now_reset now vt vt' : Z) (w : World) :
  is_EMULATION (eh_state w) = false ->
  is_EMULATION (eh_state (poll w)) = true ->
  mainLoop_iteration poll now_reset now vt w
  = mainLoop_iteration poll now_reset now vt' w.
Proof.
  intros Hb Ha. unfold mainLoop_iteration, bind, gets, modify. cbv beta.
  rewrite Hb. simpl. destruct (myQuitLoop (poll w)); [reflexivity|].
  rewrite Ha. reflexivity.
Qed.

End SchedulerMore.

(** ** NTSCFilter: presets and the custom adjustables *)

Module NTSCFilterFacts.
Import NTSCFilter.

Section FilterFacts.

Variable V : Type.
Variable SCALE_TO_100 : V -> Z.
Variable SCALE_FROM_100 : Z -> V.
Variable TV_Composite TV_SVideo TV_RGB TV_Bad : Setup V.

Local Abbreviation filter := (t V).
Local Abbreviation setPreset' :=
  (setPreset V TV_Composite TV_SVideo TV_RGB TV_Bad).
Local Abbreviation increase :=
  (increaseAdjustable V SCALE_TO_100 SCALE_FROM_100
     TV_Composite TV_SVideo TV_RGB TV_Bad).
Local Abbreviation decrease :=
  (decreaseAdjustable V SCALE_TO_100 SCALE_FROM_100
     TV_Composite TV_SVideo TV_RGB TV_Bad).

Lemma index_cases (i : Z) :
  0 <= i < 10 ->
  i = 0 \/ i = 1 \/ i = 2 \/ i = 3 \/ i = 4 \/ i = 5 \/ i = 6 \/ i = 7
  \/ i = 8 \/ i = 9.
Proof. lia. Qed.

Ltac each_index H :=
  destruct (index_cases _ H) as [->|[->|[->|[->|[->|[->|[->|[->|[->| ->]]]]]]]]].

Lemma with_selection_same (f : filter) :
  with_selection V (myCurrentAdjustable V f) f = f.
Proof. destruct f; reflexivity. Qed.

(** X25: with the custom preset selected and the selection inside the
    table of ten adjustables, [setNextAdjustable] and
    [setPreviousAdjustable] undo each other, step the selection round the
    table (from 9 on to 0, from 0 back to 9), keep it inside the table, and
    always find a name for their message. *)
Theorem adjustable_selection_cycles (f : filter) :
  myPreset V f = PRESET_CUSTOM ->
  0 <= myCurrentAdjustable V f < 10 ->
  snd (setPreviousAdjustable V (snd (setNextAdjustable V f))) = f
  /\ snd (setNextAdjustable V (snd (setPreviousAdjustable V f))) = f
  /\ 0 <= myCurrentAdjustable V (snd (setNextAdjustable V f)) < 10
  /\ 0 <= myCurrentAdjustable V (snd (setPreviousAdjustable V f)) < 10
  /\ myCurrentAdjustable V (snd (setNextAdjustable V f))
     = (myCurrentAdjustable V f + 1) mod 10
  /\ myCurrentAdjustable V (snd (setPreviousAdjustable V f))
     = (myCurrentAdjustable V f + 9) mod 10
  /\ (exists msg, fst (setNextAdjustable V f) = Some msg)
  /\ (exists msg, fst (setPreviousAdjustable V f) = Some msg).
Proof.
  intros Hp Hr. destruct f as [s p i cs n]. simpl in *. subst p.
  each_index Hr; unfold setNextAdjustable, setPreviousAdjustable; simpl;
    repeat split; try reflexivity; try lia; try discriminate;
    eexists; reflexivity.
Qed.

(** X26: unless the custom preset is selected, the four functions that
    work on the adjustables change nothing and return the same refusal. *)
Theorem adjustables_need_custom_preset (f : filter) :
  is_custom (myPreset V f) = false ->
  setNextAdjustable V f = (Some not_selected, f)
  /\ setPreviousAdjustable V f = (Some not_selected, f)
  /\ increase f = (Some not_selected, f)
  /\ decrease f = (Some not_selected, f).
Proof.
  intros H.
  unfold setNextAdjustable, setPreviousAdjustable, increaseAdjustable,
    decreaseAdjustable.
  rewrite H. repeat split.
Qed.

(** X27: [getPreset] names the preset [setPreset] has just selected with
    the text [setPreset] returned, except for the preset that turns the
    filter off, which [setPreset] reports as "disabled" and [getPreset] as
    "Disabled"; and [setPreset] initialises the filter, once and with the
    setup it selected, for every preset but that one. *)
Theorem setPreset_getPreset (preset : Preset) (f : filter) :
  myPreset V (snd (setPreset' preset f)) = preset
  /\ (preset <> PRESET_OFF ->
      getPreset V (snd (setPreset' preset f)) = fst (setPreset' preset f)
      /\ myNTSC V (snd (setPreset' preset f))
         = myNTSC V f ++ [mySetup V (snd (setPreset' preset f))])
  /\ (preset = PRESET_OFF ->
      fst (setPreset' preset f) = "disabled"%string
      /\ getPreset V (snd (setPreset' preset f)) = "Disabled"%string
      /\ myNTSC V (snd (setPreset' preset f)) = myNTSC V f
      /\ mySetup V (snd (setPreset' preset f)) = mySetup V f).
Proof.
  destruct preset; simpl;
    (split; [reflexivity|]); split; intros Hoff;
    first [ discriminate Hoff | contradiction Hoff; reflexivity
          | repeat split ].
Qed.

Lemma adjustable_at_range (j : Z) (tag : AdjustableTag V) :
  adjustable_at V j = Some tag -> 0 <= j < 10.
Proof.
  unfold adjustable_at.
  destruct (Z.leb_spec 0 j), (Z.ltb_spec j 10); simpl;
    first [discriminate | lia].
Qed.

Lemma write_adjustable_adjusted (f : filter) (newval : Z) :
  myPreset V f = PRESET_CUSTOM ->
  0 <= myCurrentAdjustable V f < 10 ->
  exists tag,
    adjustable_at V (myCurrentAdjustable V f) = Some tag
    /\ fst (write_adjustable V SCALE_FROM_100 TV_Composite TV_SVideo TV_RGB
                            TV_Bad newval f)
       = Some ("Custom '" +:+ type V tag +:+ "' set to " +:+ show_int newval)
    /\ adjusted V SCALE_FROM_100 f
         (snd (write_adjustable V SCALE_FROM_100 TV_Composite TV_SVideo TV_RGB
                                TV_Bad newval f))
         tag newval.
Proof.
  intros Hp Hr. destruct f as [s p i cs n]. simpl in *. subst p.
  each_index Hr; eexists; (split; [reflexivity|]); (split; [reflexivity|]);
    unfold adjusted; simpl; (split; [reflexivity|]);
    (split; [|repeat split]);
    intros j tag' Hne Hj; pose proof (adjustable_at_range j tag' Hj) as Hjr;
    each_index Hjr; try (contradiction Hne; reflexivity);
    injection Hj as <-; reflexivity.
Qed.

(** X28: with the custom preset selected, [increaseAdjustable] and
    [decreaseAdjustable] move the selected adjustable by 2 on the scale
    of 100.  Going up the result is capped at 100; going down it stops at
    0 and never wraps round below it.  The new value is written to the
    selected field of the custom setup and to no other, the custom setup
    is taken into use, and the message names the adjustable and the new
    value. *)
Theorem adjust_moves_selected_by_two (f : filter) :
  myPreset V f = PRESET_CUSTOM ->
  0 <= myCurrentAdjustable V f < 10 ->
  exists tag,
    adjustable_at V (myCurrentAdjustable V f) = Some tag
    /\ let old := to_uInt32 (SCALE_TO_100 (value V tag (myCustomSetup V f))) in
       let up := if 100 <? to_uInt32 (old + 2) then 100
                 else to_uInt32 (old + 2) in
       let down := Z.max (old - 2) 0 in
       0 <= up <= 100
       /\ (old + 2 < 2 ^ 32 -> up = Z.min (old + 2) 100)
       /\ 0 <= down <= old
       /\ fst (increase f)
          = Some ("Custom '" +:+ type V tag +:+ "' set to " +:+ show_int up)
       /\ adjusted V SCALE_FROM_100 f (snd (increase f)) tag up
       /\ fst (decrease f)
          = Some ("Custom '" +:+ type V tag +:+ "' set to " +:+ show_int down)
       /\ adjusted V SCALE_FROM_100 f (snd (decrease f)) tag down.
Proof.
  intros Hp Hr.
  assert (Hold : forall v, 0 <= to_uInt32 v < 2 ^ 32)
    by (intros v; apply Z.mod_pos_bound; lia).
  set (old_of := fun tag : AdjustableTag V =>
         to_uInt32 (SCALE_TO_100 (value V tag (myCustomSetup V f)))).
  assert (Hdown : forall o, 0 <= o < 2 ^ 32 ->
            (if o <? 2 then 0 else to_uInt32 (o - 2)) = Z.max (o - 2) 0).
  { intros o Ho. destruct (Z.ltb_spec o 2); [lia|].
    unfold to_uInt32. rewrite Z.mod_small by lia. lia. }
  destruct (write_adjustable_adjusted f 0 Hp Hr) as (tag & Hat & _).
  exists tag. split; [exact Hat|].
  pose proof (Hold (SCALE_TO_100 (value V tag (myCustomSetup V f)))) as Ho.
  cbv zeta.
  set (old := to_uInt32 (SCALE_TO_100 (value V tag (myCustomSetup V f)))) in *.
  pose proof (Hold (old + 2)) as Hup.
  split; [destruct (Z.ltb_spec 100 (to_uInt32 (old + 2))); lia|].
  split.
  { intros Hsmall. unfold to_uInt32. rewrite Z.mod_small by lia.
    destruct (Z.ltb_spec 100 (old + 2)); lia. }
  split; [lia|].
  unfold increaseAdjustable, decreaseAdjustable, current_scaled.
  rewrite Hp, Hat. simpl. fold old. rewrite (Hdown old Ho).
  destruct (write_adjustable_adjusted f
              (if 100 <? to_uInt32 (old + 2) then 100 else to_uInt32 (old + 2))
              Hp Hr) as (tag1 & Hat1 & Hm1 & Ha1).
  destruct (write_adjustable_adjusted f (Z.max (old - 2) 0) Hp Hr)
    as (tag2 & Hat2 & Hm2 & Ha2).
  rewrite Hat in Hat1, Hat2. injection Hat1 as <-. injection Hat2 as <-.
  split; [exact Hm1|]. split; [exact Ha1|]. split; [exact Hm2 | exact Ha2].
Qed.

End FilterFacts.

End NTSCFilterFacts.

(** ** The further facts on concrete inputs *)

Module StateManagerMoreRuns.
Import Fixture MoreFixture.

Lemma state_file_cannot_open_witness :
  loadState 3 (world EMULATION 0 false no_files)
  = (Done tt,
     log (ShowMessage "Can't open/load from state file 3")
       (log (OpenSerializer "/state/Pitfall.st3" true)
          (world EMULATION 0 false no_files)))
  /\ saveState (-1) (world EMULATION 0 false no_files)
     = (Done tt,
        log (ShowMessage "Can't open/save to state file 0")
          (log (OpenSerializer "/state/Pitfall.st0" false)
             (world EMULATION 0 false no_files))).
Proof.
  split.
  - exact (proj1 (state_file_cannot_open (world EMULATION 0 false no_files)
                    pitfall 3 eq_refl ltac:(discriminate)) eq_refl).
  - exact (proj2 (state_file_cannot_open (world EMULATION 0 false no_files)
                    pitfall (-1) eq_refl ltac:(discriminate)) eq_refl).
Defined.

Lemma loadState_truncated_file_witness :
  loadState 1 (world EMULATION 0 false (every_file []))
  = (Done tt,
     log (ShowMessage "Invalid data in state 1 file")
       (log GetString
          (log (OpenSerializer "/state/Pitfall.st1" true)
             (world EMULATION 0 false (every_file [])))))
  /\ loadState 1 (world EMULATION 0 false (every_file [STATE_HEADER]))
     = (Done tt,
        log (ShowMessage "Invalid data in state 1 file")
          (log GetString
             (log GetString
                (log (OpenSerializer "/state/Pitfall.st1" true)
                   (world EMULATION 0 false (every_file [STATE_HEADER])))))).
Proof.
  split.
  - exact (proj1 (loadState_truncated_file
                    (world EMULATION 0 false (every_file [])) pitfall 1 []
                    eq_refl ltac:(discriminate) eq_refl)
             "end of stream"%string eq_refl).
  - exact (proj2 (loadState_truncated_file
                    (world EMULATION 0 false (every_file [STATE_HEADER]))
                    pitfall 1 [STATE_HEADER]
                    eq_refl ltac:(discriminate) eq_refl)
             [] "end of stream"%string eq_refl eq_refl).
Defined.

Lemma loadState_completed_witness :
  loadState 1 (world EMULATION 0 false
                 (every_file [STATE_HEADER; "4K"; "level 3"]))
  = (Done tt,
     log (ShowMessage "State 1 loaded")
       (set_machine "level 3"%string
          (log ConsoleLoad
             (log GetString
                (log GetString
                   (log (OpenSerializer "/state/Pitfall.st1" true)
                      (world EMULATION 0 false
                         (every_file [STATE_HEADER; "4K"; "level 3"]))))))))
  /\ myConsole (snd (loadState 1 (world EMULATION 0 false
                                   (every_file [STATE_HEADER; "4K"; "level 3"]))))
     = Some (with_machine "level 3"%string pitfall).
Proof.
  exact (loadState_completed
           (world EMULATION 0 false (every_file [STATE_HEADER; "4K"; "level 3"]))
           pitfall 1 [STATE_HEADER; "4K"; "level 3"] ["4K"; "level 3"]
           ["level 3"] true "level 3"%string
           eq_refl ltac:(discriminate) eq_refl eq_refl eq_refl eq_refl).
Defined.

(** A save to slot 9 with [autoslot]: the successor 10 is a value of
    [int], the call returns and the current slot is 9 or [10 % 10]. *)
Lemma saveState_touches_only_slot_witness :
  int_range (effective_slot 9 (world EMULATION 9 true (every_file [])) + 1)
  /\ (fst (saveState 9 (world EMULATION 9 true (every_file []))) = Done tt
      \/ exists what,
           fst (saveState 9 (world EMULATION 9 true (every_file [])))
           = Thrown what)
  /\ myConsole (snd (saveState 9 (world EMULATION 9 true (every_file []))))
     = myConsole (world EMULATION 9 true (every_file []))
  /\ myActiveMode (snd (saveState 9 (world EMULATION 9 true (every_file []))))
     = myActiveMode (world EMULATION 9 true (every_file []))
  /\ settings (snd (saveState 9 (world EMULATION 9 true (every_file []))))
     = settings (world EMULATION 9 true (every_file []))
  /\ (myCurrentSlot (snd (saveState 9 (world EMULATION 9 true (every_file []))))
      = myCurrentSlot (world EMULATION 9 true (every_file []))
      \/ myCurrentSlot
           (snd (saveState 9 (world EMULATION 9 true (every_file []))))
         = Z.rem
             (effective_slot 9 (world EMULATION 9 true (every_file [])) + 1)
             10).
Proof.
  assert (Hint : int_range
                   (effective_slot 9 (world EMULATION 9 true (every_file []))
                    + 1))
    by (vm_compute; split; discriminate).
  split; [exact Hint|].
  exact (saveState_touches_only_slot 9
           (world EMULATION 9 true (every_file [])) Hint).
Defined.

(** Six calls from slot 9, two of them saves with [autoslot]: the run is
    defined and ends with slot 6 current. *)
Lemma current_slot_stays_in_range_witness :
  exists w',
    run_slot_ops [DoSaveState (-1); DoChangeState; DoSaveState 25;
                  DoLoadState 3; DoToggleTimeMachine; DoUpdate]
      (world EMULATION 9 true (every_file [])) = Some w'
    /\ 0 <= myCurrentSlot w' < 10.
Proof.
  apply (current_slot_stays_in_range
           [DoSaveState (-1); DoChangeState; DoSaveState 25;
            DoLoadState 3; DoToggleTimeMachine; DoUpdate]
           (world EMULATION 9 true (every_file []))).
  - vm_compute. split; [discriminate | reflexivity].
  - repeat (constructor; [first [exact I | reflexivity]|]). constructor.
Defined.

(** A save to slot [INT_MAX] with [autoslot] overflows in [slot + 1]: the
    run of calls has no defined result.  Without [autoslot] the same call
    returns. *)
Example saveState_INT_MAX_overflows :
  saveState INT_MAX (world EMULATION 9 true (every_file []))
  = (Undefined,
     log ConsoleSave
       (log (PutString "4K")
          (log (PutString STATE_HEADER)
             (log (OpenSerializer "/state/Pitfall.st2147483647" false)
                (world EMULATION 9 true (every_file []))))))
  /\ run_slot_ops [DoSaveState INT_MAX; DoChangeState]
       (world EMULATION 9 true (every_file [])) = None
  /\ fst (saveState INT_MAX (world EMULATION 9 false (every_file [])))
     = Done tt.
Proof. repeat split. Qed.

Lemma changeState_cycles_witness :
  myCurrentSlot (changeState_times 5 (world EMULATION 7 false (every_file [])))
  = (7 + 5) mod 10
  /\ myCurrentSlot (changeState_times 10 (world EMULATION 7 false (every_file [])))
     = 7
  /\ changeState (world EMULATION 9 false (every_file []))
     = (Done tt,
        log (ShowMessage "Changed to slot 0")
          (set_myCurrentSlot 0 (world EMULATION 9 false (every_file [])))).
Proof.
  destruct (changeState_cycles (world EMULATION 7 false (every_file [])) 5
              ltac:(vm_compute; split; [discriminate | reflexivity]))
    as (H5 & H10 & _).
  destruct (changeState_cycles (world EMULATION 9 false (every_file [])) 0
              ltac:(vm_compute; split; [discriminate | reflexivity]))
    as (_ & _ & Hmsg).
  split; [exact H5|]. split; [exact H10 | exact Hmsg].
Defined.

(** The mode is [Off] while the settings hold ["plr.timemachine"] true:
    two toggles bring the mode back to [Off] and leave [false] stored. *)
Lemma toggleTimeMachine_persists_mode_witness :
  getBool "plr.timemachine"
    (set_settings {[ "plr.timemachine"%string := true ]}
       (bare EMULATION 0 Off)) = true
  /\ myActiveMode
       (snd (toggleTimeMachine
               (snd (toggleTimeMachine
                       (set_settings {[ "plr.timemachine"%string := true ]}
                          (bare EMULATION 0 Off)))))) = Off
  /\ getBool "plr.timemachine"
       (snd (toggleTimeMachine
               (snd (toggleTimeMachine
                       (set_settings {[ "plr.timemachine"%string := true ]}
                          (bare EMULATION 0 Off)))))) = false.
Proof.
  destruct (toggleTimeMachine_persists_mode
              (set_settings {[ "plr.timemachine"%string := true ]}
                 (bare EMULATION 0 Off)))
    as (_ & _ & _ & _ & Hmode & Hstored & _).
  split; [reflexivity|]. split; [exact Hmode | exact Hstored].
Defined.

Lemma loadState_overloads_agree_witness :
  myConsole (snd (loadState 1 (world EMULATION 0 false
                                 (every_file [STATE_HEADER; "4K"; "level 3"]))))
  = myConsole (snd (loadState_from (fun _ => true)
                      [STATE_HEADER; "4K"; "level 3"]
                      (world EMULATION 0 false
                         (every_file [STATE_HEADER; "4K"; "level 3"]))))
  /\ (fst (loadState_from (fun _ => true) [STATE_HEADER; "4K"; "level 3"]
             (world EMULATION 0 false
                (every_file [STATE_HEADER; "4K"; "level 3"])))
      = Done true
      <-> messages (events (snd (loadState 1
                                   (world EMULATION 0 false
                                      (every_file [STATE_HEADER; "4K";
                                                   "level 3"])))))
          = ["State 1 loaded"%string]).
Proof.
  exact (loadState_overloads_agree (fun _ => true)
           (world EMULATION 0 false (every_file [STATE_HEADER; "4K"; "level 3"]))
           pitfall 1 [STATE_HEADER; "4K"; "level 3"]
           eq_refl ltac:(discriminate) eq_refl eq_refl).
Defined.

(** The clock is 5 ms past the start and the menu's sixtieth of a second
    takes the virtual time ahead of it: the iteration sleeps. *)
Lemma mainLoop_iteration_keeps_pace_witness :
  mainLoop_iteration (fun w => w) 0 5000000 1000
    (world OPTIONSMENU 0 false (every_file []))
  = (Done (Some 16667666),
     log (SleepUntil 16667666)
       (log FrameBufferUpdate (world OPTIONSMENU 0 false (every_file [])))).
Proof.
  exact (mainLoop_iteration_keeps_pace (fun w => w) 0 5000000 1000
           (world OPTIONSMENU 0 false (every_file []))
           (log FrameBufferUpdate (world OPTIONSMENU 0 false (every_file [])))
           (1 / 60)%float eq_refl eq_refl eq_refl).
Defined.

(** The poll takes the event handler from [PAUSE] to [EMULATION]. *)
Lemma entering_emulation_drops_virtual_time_witness :
  mainLoop_iteration (fun _ => world EMULATION 0 false (every_file []))
    7000 8000 0 (world PAUSE 0 false (every_file []))
  = mainLoop_iteration (fun _ => world EMULATION 0 false (every_file []))
      7000 8000 123456789 (world PAUSE 0 false (every_file [])).
Proof.
  exact (entering_emulation_drops_virtual_time
           (fun _ => world EMULATION 0 false (every_file []))
           7000 8000 0 123456789 (world PAUSE 0 false (every_file []))
           eq_refl eq_refl).
Defined.

End StateManagerMoreRuns.

Module TrapRuns.
Import TrapFixture.

(** The disk fills up at the header (the file already holds two strings)
    or at the cartridge name (it holds one). *)
Lemma saveState_write_throws_witness :
  saveState 4 (world "power-on" ["a"; "b"])
  = (Done tt,
     log (ShowMessage "/state/Pitfall.st4Error saving state 4")
       (log (PutString STATE_HEADER)
          (log (OpenSerializer "/state/Pitfall.st4" false)
             (world "power-on" ["a"; "b"]))))
  /\ saveState 4 (world "power-on" ["a"])
     = (Done tt,
        log (ShowMessage "/state/Pitfall.st4Error saving state 4")
          (log (PutString "4K")
             (log (PutString STATE_HEADER)
                (log (OpenSerializer "/state/Pitfall.st4" false)
                   (world "power-on" ["a"]))))).
Proof.
  split.
  - exact (proj1 (saveState_write_throws (world "power-on" ["a"; "b"])
                    (cartridge "power-on") 4 ["a"; "b"]
                    eq_refl ltac:(discriminate) eq_refl)
             "disk full"%string eq_refl).
  - exact (proj2 (saveState_write_throws (world "power-on" ["a"])
                    (cartridge "power-on") 4 ["a"]
                    eq_refl ltac:(discriminate) eq_refl)
             ["a"; STATE_HEADER] "disk full"%string eq_refl eq_refl).
Defined.

Lemma saveState_console_save_fails_witness :
  (myCurrentSlot (snd (saveState (-1) (world "running" []))) = 2
   /\ messages (events (snd (saveState (-1) (world "running" []))))
      = ["Error saving state 2"%string])
  /\ saveState (-1) (world "power-on" [])
     = (Thrown "disk full",
        log ConsoleSave
          (log (PutString "4K")
             (log (PutString STATE_HEADER)
                (log (OpenSerializer "/state/Pitfall.st2" false)
                   (world "power-on" []))))).
Proof.
  split.
  - rewrite (proj1 (saveState_console_save_fails (world "running" [])
                      (cartridge "running") (-1)
                      [] [STATE_HEADER] [STATE_HEADER; "4K"]
                      eq_refl ltac:(discriminate) eq_refl eq_refl eq_refl)
               eq_refl).
    split; reflexivity.
  - exact (proj2 (saveState_console_save_fails (world "power-on" [])
                    (cartridge "power-on") (-1)
                    [] [STATE_HEADER] [STATE_HEADER; "4K"]
                    eq_refl ltac:(discriminate) eq_refl eq_refl eq_refl)
             "disk full"%string eq_refl).
Defined.

Lemma console_save_exception_paths_witness :
  saveState_to (fun _ => true) [] (world "power-on" [])
  = (Done false,
     log (CerrLine "ERROR: StateManager::saveState(Serializer&)")
       (log ConsoleSave
          (log (PutString "4K")
             (log (PutString STATE_HEADER) (world "power-on" [])))))
  /\ fst (saveState 0 (world "power-on" [])) = Thrown "disk full".
Proof.
  exact (console_save_exception_paths (fun _ => true) (world "power-on" [])
           (cartridge "power-on") 0 [] [STATE_HEADER] [STATE_HEADER; "4K"]
           "disk full"%string
           eq_refl ltac:(discriminate) eq_refl eq_refl eq_refl eq_refl eq_refl).
Defined.

(** Frying is requested, but the worker stopped at a breakpoint: the
    console holds what the worker left, unfried. *)
Lemma dispatchEmulation_fries_only_when_ok_witness :
  myConsole (snd (dispatchEmulation (world "power-on" [])))
  = Some (cartridge "power-on, stepped").
Proof.
  exact (proj1 (dispatchEmulation_fries_only_when_ok (world "power-on" [])
                  (cartridge "power-on") eq_refl ltac:(discriminate))).
Defined.

End TrapRuns.

Module NTSCFilterRuns.
Import NTSCFilter NTSCFilterFacts MoreFixture.

Lemma adjustable_selection_cycles_witness :
  snd (setPreviousAdjustable Z (snd (setNextAdjustable Z (custom 9 50))))
  = custom 9 50
  /\ myCurrentAdjustable Z (snd (setNextAdjustable Z (custom 9 50))) = 0
  /\ fst (setNextAdjustable Z (custom 9 50))
     = Some "Custom adjustable 'contrast' selected"%string
  /\ fst (setPreviousAdjustable Z (custom 0 50))
     = Some "Custom adjustable 'bleeding' selected"%string.
Proof.
  destruct (adjustable_selection_cycles Z (custom 9 50) eq_refl
              ltac:(vm_compute; split; [discriminate | reflexivity]))
    as (Hback & _).
  split; [exact Hback|]. repeat split.
Defined.

Lemma adjustables_need_custom_preset_witness :
  setNextAdjustable Z (create Z (flat 50)) = (Some not_selected, create Z (flat 50))
  /\ setPreviousAdjustable Z (create Z (flat 50))
     = (Some not_selected, create Z (flat 50))
  /\ increaseAdjustable Z (fun v => v) (fun n => n)
       (flat 50) (flat 50) (flat 50) (flat 50) (create Z (flat 50))
     = (Some not_selected, create Z (flat 50))
  /\ decreaseAdjustable Z (fun v => v) (fun n => n)
       (flat 50) (flat 50) (flat 50) (flat 50) (create Z (flat 50))
     = (Some not_selected, create Z (flat 50)).
Proof.
  exact (adjustables_need_custom_preset Z (fun v => v) (fun n => n)
           (flat 50) (flat 50) (flat 50) (flat 50) (create Z (flat 50))
           eq_refl).
Defined.

(** At 99 the step up is capped at 100; at 1 the step down stops at 0. *)
Lemma adjust_moves_selected_by_two_witness :
  fst (increaseAdjustable Z (fun v => v) (fun n => n)
         (flat 50) (flat 50) (flat 50) (flat 50) (custom 2 99))
  = Some "Custom 'hue' set to 100"%string
  /\ fst (decreaseAdjustable Z (fun v => v) (fun n => n)
            (flat 50) (flat 50) (flat 50) (flat 50) (custom 2 1))
     = Some "Custom 'hue' set to 0"%string.
Proof.
  destruct (adjust_moves_selected_by_two Z (fun v => v) (fun n => n)
              (flat 50) (flat 50) (flat 50) (flat 50) (custom 2 99) eq_refl
              ltac:(vm_compute; split; [discriminate | reflexivity]))
    as (tag & Hat & _ & _ & _ & Hup & _).
  destruct (adjust_moves_selected_by_two Z (fun v => v) (fun n => n)
              (flat 50) (flat 50) (flat 50) (flat 50) (custom 2 1) eq_refl
              ltac:(vm_compute; split; [discriminate | reflexivity]))
    as (tag' & Hat' & _ & _ & _ & _ & _ & Hdown & _).
  injection Hat as <-. injection Hat' as <-.
  split; [exact Hup | exact Hdown].
Defined.

End NTSCFilterRuns.
